(** * isolate: environment manager, address codec and remote facade

    A shallow embedding of the parts of [isolate] that the specification
    makes claims about:

    - [isolate/connections/ipc/bridge.py]: [encode_service_address] and
      [decode_service_address];
    - [isolate/backends/common.py]: [rmdir_on_fail], [python_path_for],
      [cache_static];
    - [isolate/backends/conda.py]: [CondaEnvironment.key], [create],
      [destroy], [_get_conda_executable];
    - [isolate/backends/remote.py]: [IsolateServerConnection.run].

    Python values are modelled as follows.  A [str] is the list of its
    Unicode code points ([pystr]), a [bytes] object is a list of [byte]s.
    A call that may raise returns a [result]; code that touches the file
    system, spawns processes or logs threads an explicit [World]. *)

From Stdlib Require Import NArith ZArith List Lia Bool.
From Stdlib Require Import Strings.Byte Strings.Ascii Strings.String.
From stdpp Require Import base option list gmap.

(** ** Python values and exceptions *)

(** A Python [str]: a sequence of code points.  CPython admits every code
    point below [0x110000], lone surrogates included. *)
Definition pystr : Type := list N.

(** A Python [bytes] object. *)
Definition pybytes : Type := list byte.

(** ASCII literals of the source, as [pystr]. *)
Definition lit (s : string) : pystr :=
  map N_of_ascii (list_ascii_of_string s).

(** [pathlib.Path], as the list of its components below the root. *)
Definition Path : Type := list pystr.

(** [path / name] *)
Definition path_join (p : Path) (name : pystr) : Path := p ++ [name].
Infix "//" := path_join (at level 40, left associativity).

(** An element of a command line or of a log call: the source passes both
    [str] and [Path] objects. *)
Inductive arg : Type :=
| ArgStr (s : pystr)
| ArgPath (p : Path).

(** The exceptions the embedded code meets.  [KeyboardInterrupt] and
    [SystemExit] derive from [BaseException] only; all the others are
    instances of [Exception]. *)
Inductive exn : Type :=
| UnicodeDecodeError
| UnicodeEncodeError
| ValueError (msg : string)
| BinasciiError (msg : string)
| AssertionError
| FileExistsError (path : Path)
| FileNotFoundError (msg : string)
| NotADirectoryError (path : Path)
| CalledProcessError (returncode : Z) (cmd : list arg)
| RuntimeError (msg : string)
| KeyboardInterrupt
| SystemExit (code : Z).

(** [isinstance(e, Exception)] *)
Definition is_exception (e : exn) : bool :=
  match e with
  | KeyboardInterrupt | SystemExit _ => false
  | _ => true
  end.

Inductive result (A : Type) : Type :=
| Ok (a : A)
| Raise (e : exn).
Arguments Ok {A} a.
Arguments Raise {A} e.

Definition rbind {A B} (r : result A) (k : A -> result B) : result B :=
  match r with
  | Ok a => k a
  | Raise e => Raise e
  end.

Definition of_option {A} (e : exn) (o : option A) : result A :=
  match o with
  | Some a => Ok a
  | None => Raise e
  end.

Global Instance result_ret : MRet result := λ A a, Ok a.
Global Instance result_bind : MBind result := λ A B k r, rbind r k.

(** ** The codecs used by the address encoding *)

Module Codec.

(** Truncation of a number to an [unsigned char]. *)
Definition byte_of_N (n : N) : byte :=
  match Byte.of_N (n mod 256) with
  | Some b => b
  | None => x00
  end.

(** *** UTF-8 ([str.encode()] and [bytes.decode()], errors strict) *)

Definition is_surrogate (c : N) : bool :=
  ((0xD800 <=? c) && (c <=? 0xDFFF))%N.

(** The code points [str.encode("utf-8")] accepts. *)
Definition encodable (c : N) : bool :=
  ((c <? 0x110000) && negb (is_surrogate c))%N.

Definition utf8_encode_char (c : N) : option (list byte) :=
  if (c <? 0x80)%N then Some [byte_of_N c]
  else if (c <? 0x800)%N then
    Some [byte_of_N (0xC0 + c / 64); byte_of_N (0x80 + c mod 64)]
  else if (c <? 0x10000)%N then
    if is_surrogate c then None
    else Some [byte_of_N (0xE0 + c / 4096);
               byte_of_N (0x80 + (c / 64) mod 64);
               byte_of_N (0x80 + c mod 64)]
  else if (c <? 0x110000)%N then
    Some [byte_of_N (0xF0 + c / 262144);
          byte_of_N (0x80 + (c / 4096) mod 64);
          byte_of_N (0x80 + (c / 64) mod 64);
          byte_of_N (0x80 + c mod 64)]
  else None.

(** [s.encode()]: [None] stands for [UnicodeEncodeError]. *)
Fixpoint utf8_encode (s : pystr) : option pybytes :=
  match s with
  | [] => Some []
  | c :: s' =>
      match utf8_encode_char c, utf8_encode s' with
      | Some bs, Some rest => Some (bs ++ rest)
      | _, _ => None
      end
  end.

(** Continuation bytes are [10xxxxxx]. *)
Definition is_cont (n : N) : bool := ((0x80 <=? n) && (n <=? 0xBF))%N.

(** [bs.decode("utf-8")]: [None] stands for [UnicodeDecodeError].  The
    decoder is strict: no overlong forms, no surrogates, nothing above
    [0x10FFFF].  The recursion is on the bytes left after each character. *)
Fixpoint utf8_decode (bs : list byte) : option pystr :=
  match bs with
  | [] => Some []
  | b0 :: r0 =>
      let n0 := Byte.to_N b0 in
      if (n0 <? 0x80)%N then cons n0 <$> utf8_decode r0
      else if (n0 <? 0xC2)%N then None
      else if (n0 <? 0xE0)%N then
        match r0 with
        | b1 :: r1 =>
            let n1 := Byte.to_N b1 in
            if is_cont n1
            then cons ((n0 - 0xC0) * 64 + (n1 - 0x80))%N <$> utf8_decode r1
            else None
        | _ => None
        end
      else if (n0 <? 0xF0)%N then
        match r0 with
        | b1 :: b2 :: r2 =>
            let n1 := Byte.to_N b1 in
            let n2 := Byte.to_N b2 in
            let c := ((n0 - 0xE0) * 4096 + (n1 - 0x80) * 64 + (n2 - 0x80))%N in
            if is_cont n1 && is_cont n2 && (0x800 <=? c)%N
               && negb (is_surrogate c)
            then cons c <$> utf8_decode r2
            else None
        | _ => None
        end
      else if (n0 <? 0xF5)%N then
        match r0 with
        | b1 :: b2 :: b3 :: r3 =>
            let n1 := Byte.to_N b1 in
            let n2 := Byte.to_N b2 in
            let n3 := Byte.to_N b3 in
            let c := ((n0 - 0xF0) * 262144 + (n1 - 0x80) * 4096
                      + (n2 - 0x80) * 64 + (n3 - 0x80))%N in
            if is_cont n1 && is_cont n2 && is_cont n3
               && (0x10000 <=? c)%N && (c <? 0x110000)%N
            then cons c <$> utf8_decode r3
            else None
        | _ => None
        end
      else None
  end.

(** *** Base64 ([base64.b64encode] and [base64.b64decode]) *)

(** [p] holds of every number below [n]; used to settle facts about single
    bytes and sextets by evaluation. *)
Fixpoint forall_below (n : nat) (p : N -> bool) : bool :=
  match n with
  | O => true
  | S k => p (N.of_nat k) && forall_below k p
  end.

Definition BASE64_PAD : byte := "="%byte.

Definition alphabet : list byte :=
  list_byte_of_string
    "ABCDEFGHIJKLMNOPQRSTUVWXYZabcdefghijklmnopqrstuvwxyz0123456789+/".

(** The encoding table, indexed by a sextet. *)
Definition table_b2a_base64 (i : N) : byte :=
  nth (N.to_nat i) alphabet x00.

Fixpoint index_of (b : byte) (l : list byte) (i : N) : N :=
  match l with
  | [] => 64%N
  | x :: l' => if Byte.eqb x b then i else index_of b l' (N.succ i)
  end.

(** The decoding table: the sextet of an alphabet character, 64 for every
    other byte. *)
Definition table_a2b_base64 (b : byte) : N := index_of b alphabet 0%N.

(** [binascii.b2a_base64(bs, newline=False)]: three bytes become four
    characters, the last group is padded with [=]. *)
Fixpoint b2a_base64 (bs : list byte) : list byte :=
  match bs with
  | [] => []
  | [a] =>
      let a := Byte.to_N a in
      [table_b2a_base64 (N.shiftr a 2);
       table_b2a_base64 (N.shiftl (N.land a 3) 4);
       BASE64_PAD; BASE64_PAD]
  | [a; b] =>
      let a := Byte.to_N a in
      let b := Byte.to_N b in
      [table_b2a_base64 (N.shiftr a 2);
       table_b2a_base64 (N.lor (N.shiftl (N.land a 3) 4) (N.shiftr b 4));
       table_b2a_base64 (N.shiftl (N.land b 0xf) 2);
       BASE64_PAD]
  | a :: b :: c :: rest =>
      let a := Byte.to_N a in
      let b := Byte.to_N b in
      let c := Byte.to_N c in
      table_b2a_base64 (N.shiftr a 2)
      :: table_b2a_base64 (N.lor (N.shiftl (N.land a 3) 4) (N.shiftr b 4))
      :: table_b2a_base64 (N.lor (N.shiftl (N.land b 0xf) 2) (N.shiftr c 6))
      :: table_b2a_base64 (N.land c 0x3f)
      :: b2a_base64 rest
  end.

(** The loop of [binascii.a2b_base64] (not strict): [quad_pos] counts the
    data characters of the current group, [leftchar] holds the bits not
    yet written, [pads] the padding characters seen since the last data
    character.  Bytes outside the alphabet are skipped. *)
Fixpoint a2b_loop (input : list byte) (quad_pos : nat) (leftchar : N)
    (pads : nat) (out : list byte) : result (list byte) :=
  match input with
  | [] =>
      match quad_pos with
      | 0 => Ok out
      | 1 => Raise (BinasciiError
               "Invalid base64-encoded string: number of data characters cannot be 1 more than a multiple of 4")
      | _ => Raise (BinasciiError "Incorrect padding")
      end
  | ch :: rest =>
      if Byte.eqb ch BASE64_PAD then
        if (2 <=? quad_pos)%nat then
          if (4 <=? quad_pos + (pads + 1))%nat then Ok out
          else a2b_loop rest quad_pos leftchar (pads + 1) out
        else a2b_loop rest quad_pos leftchar pads out
      else
        let this_ch := table_a2b_base64 ch in
        if (64 <=? this_ch)%N then a2b_loop rest quad_pos leftchar pads out
        else
          match quad_pos with
          | 0 => a2b_loop rest 1 this_ch 0 out
          | 1 =>
              a2b_loop rest 2 (N.land this_ch 0x0f) 0
                (out ++ [byte_of_N
                           (N.lor (N.shiftl leftchar 2) (N.shiftr this_ch 4))])
          | 2 =>
              a2b_loop rest 3 (N.land this_ch 0x03) 0
                (out ++ [byte_of_N
                           (N.lor (N.shiftl leftchar 4) (N.shiftr this_ch 2))])
          | _ =>
              a2b_loop rest 0 0 0
                (out ++ [byte_of_N (N.lor (N.shiftl leftchar 6) this_ch)])
          end
  end.

Definition a2b_base64 (input : list byte) : result (list byte) :=
  a2b_loop input 0 0 0 [].

(** [s.encode("ascii")] *)
Fixpoint ascii_encode (s : pystr) : option pybytes :=
  match s with
  | [] => Some []
  | c :: s' =>
      if (c <? 0x80)%N then cons (byte_of_N c) <$> ascii_encode s' else None
  end.

(** [base64.b64encode(s)] *)
Definition b64encode (s : pybytes) : pybytes := b2a_base64 s.

(** [base64.b64decode(s)] on a [str] argument: the text must be ASCII,
    then the bytes go through [binascii.a2b_base64]. *)
Definition b64decode (s : pystr) : result pybytes :=
  raw ← of_option
          (ValueError "string argument should contain only ASCII characters")
          (ascii_encode s);
  a2b_base64 raw.

End Codec.

(** ** [isolate/connections/ipc/bridge.py] *)

(** The argument of [encode_service_address] is [Union[bytes, str]]; the
    same type describes what a caller may compare a result with. *)
Inductive pyvalue : Type :=
| PyBytes (b : pybytes)
| PyStr (s : pystr).

Definition encode_service_address (address : pyvalue) : result pystr :=
  address ← match address with
            | PyBytes b => of_option UnicodeDecodeError (Codec.utf8_decode b)
            | PyStr s => Ok s
            end;
  raw ← of_option UnicodeEncodeError (Codec.utf8_encode address);
  of_option UnicodeDecodeError (Codec.utf8_decode (Codec.b64encode raw)).

Definition decode_service_address (address : pystr) : result pystr :=
  raw ← Codec.b64decode address;
  of_option UnicodeDecodeError (Codec.utf8_decode raw).

(** The text an address stands for: a [str] that UTF-8 can encode stands
    for itself, a [bytes] object for what it decodes to. *)
Definition address_text (a : pyvalue) : result pystr :=
  match a with
  | PyBytes b => of_option UnicodeDecodeError (Codec.utf8_decode b)
  | PyStr s =>
      if forallb Codec.encodable s then Ok s else Raise UnicodeEncodeError
  end.

(** [decode_service_address(encode_service_address(a))], as a Python
    value. *)
Definition address_round_trip (a : pyvalue) : result pyvalue :=
  encoded ← encode_service_address a;
  decoded ← decode_service_address encoded;
  Ok (PyStr decoded).

(** ** The file system and the rest of the world *)

Inductive node : Type :=
| Dir
| File (executable : bool).

(** The file system: the paths that exist, with what they are. *)
Abbreviation FS := (gmap Path node).

(** [Path.exists()] *)
Definition path_exists (fs : FS) (p : Path) : bool :=
  bool_decide (is_Some (fs !! p)).

(** The entries that are not [root] and not below it. *)
Definition without_tree (root : Path) (fs : FS) : FS :=
  filter (fun entry => ¬ root `prefix_of` entry.1) fs.

(** A call of [self.log(template, *args, kind=...)]. *)
Record LogEntry : Type := mkLogEntry {
  log_template : string;
  log_args : list arg;
  log_kind : string;
}.

Record World : Type := mkWorld {
  fs : FS;
  (** command lines handed to [subprocess], oldest first *)
  spawned : list (list arg);
  (** what [self.log] received, oldest first *)
  logged : list LogEntry;
  (** the cell [_function_cache] of [cache_static(_get_conda_executable)] *)
  conda_cache : option Path;
}.

Definition set_fs (f : FS) (w : World) : World :=
  mkWorld f (spawned w) (logged w) (conda_cache w).
Definition add_spawned (cmd : list arg) (w : World) : World :=
  mkWorld (fs w) (spawned w ++ [cmd]) (logged w) (conda_cache w).
Definition add_logged (e : LogEntry) (w : World) : World :=
  mkWorld (fs w) (spawned w) (logged w ++ [e]) (conda_cache w).
Definition set_conda_cache (c : option Path) (w : World) : World :=
  mkWorld (fs w) (spawned w) (logged w) c.

(** What the embedded code takes from outside: the standard library, the
    process environment and the programs it runs. *)
Class Platform : Type := {
  (** [hashlib.sha256(data).hexdigest()] *)
  sha256_hexdigest : pybytes -> pystr;
  (** [self.context.get_cache_dir(self)] *)
  get_cache_dir : Path;
  (** [shutil.which(cmd, path=path)] on a given file system *)
  shutil_which : FS -> pystr -> option pystr -> option Path;
  (** the effect of running a command line to completion: the file system
      it leaves and its exit status *)
  run_process : list arg -> FS -> FS * Z;
  (** whether the wait for that command is interrupted from the keyboard;
      [subprocess] kills the child then, so that the run does not end
      with status zero *)
  interrupted : list arg -> FS -> bool;
  (** [os.environ.get("CONDA_EXE", "conda")] *)
  _CONDA_COMMAND : pystr;
  (** [os.getenv("ISOLATE_CONDA_HOME")] *)
  _ISOLATE_CONDA_HOME : option pystr;
  (** [os.pathsep] *)
  pathsep : pystr;
  (** [sysconfig.get_path("purelib", vars={"base": base})] *)
  purelib : Path -> pystr;
}.

(** Computations that read and change the world and may raise. *)
Definition M (A : Type) : Type := World -> result A * World.

Definition ret {A} (a : A) : M A := fun w => (Ok a, w).
Definition raise {A} (e : exn) : M A := fun w => (Raise e, w).
Definition bind {A B} (m : M A) (k : A -> M B) : M B :=
  fun w =>
    match m w with
    | (Ok a, w') => k a w'
    | (Raise e, w') => (Raise e, w')
    end.
Definition lift {A} (r : result A) : M A := fun w => (r, w).

Declare Scope world_scope.
Delimit Scope world_scope with world.
Notation "'do' x <- m ; k" := (bind m (fun x => k))
  (at level 10, x name, m at level 100, k at level 200) : world_scope.
Local Open Scope world_scope.

(** [try: body except Exception as e: handler(e)]: what is no instance of
    [Exception] passes the handler by. *)
Definition try_except {A} (body : M A) (handler : exn -> M A) : M A :=
  fun w =>
    match body w with
    | (Ok a, w') => (Ok a, w')
    | (Raise e, w') =>
        if is_exception e then handler e w' else (Raise e, w')
    end.

(** [str.join] *)
Fixpoint str_join (sep : pystr) (l : list pystr) : pystr :=
  match l with
  | [] => []
  | x :: rest =>
      match rest with
      | [] => x
      | _ :: _ => x ++ sep ++ str_join sep rest
      end
  end.

(** [s.split(sep)] for a separator of one character: how a search path
    is taken apart again. *)
Fixpoint str_split (sep : N) (s : pystr) : list pystr :=
  match s with
  | [] => [[]]
  | c :: s' =>
      if (c =? sep)%N then [] :: str_split sep s'
      else
        match str_split sep s' with
        | first :: others => (c :: first) :: others
        | [] => [[c]]
        end
  end.

(** [shutil.rmtree(path)] *)
Definition shutil_rmtree (path : Path) : M unit :=
  fun w =>
    match fs w !! path with
    | None => (Raise (FileNotFoundError "No such file or directory"), w)
    | Some (File _) => (Raise (NotADirectoryError path), w)
    | Some Dir => (Ok tt, set_fs (without_tree path (fs w)) w)
    end.

(** [subprocess.check_call(cmd)] for a command that starts: it runs to
    an exit status, and a status other than zero is raised as
    [CalledProcessError], unless the wait was interrupted from the
    keyboard: then the child is killed and [KeyboardInterrupt] goes
    up. *)
Definition subprocess_check_call `{Platform} (cmd : list arg) : M unit :=
  fun w =>
    let '(fs', returncode) := run_process cmd (fs w) in
    let w' := set_fs fs' (add_spawned cmd w) in
    if (returncode =? 0)%Z then (Ok tt, w')
    else if interrupted cmd (fs w) then (Raise KeyboardInterrupt, w')
    else (Raise (CalledProcessError returncode cmd), w').

(** [self.log(template, *args, kind=kind)] *)
Definition log (template : string) (args : list arg) (kind : string)
  : M unit :=
  fun w => (Ok tt, add_logged (mkLogEntry template args kind) w).

(** ** [isolate/backends/common.py] *)

(** [with rmdir_on_fail(path): body] *)
Definition rmdir_on_fail {A} (path : Path) (body : M A) : M A :=
  try_except body
    (fun e =>
       do present <- (fun w => (Ok (path_exists (fs w) path), w));
       do _ <- (if present then shutil_rmtree path else ret tt);
       raise e).

Definition python_path_for `{Platform} (search_paths : list Path)
  : result pystr :=
  if (1 <=? length search_paths)%nat
  then Ok (str_join pathsep (map purelib search_paths))
  else Raise AssertionError.

(** [cache_static(func)], for the one function it decorates. *)
Definition cache_static (func : M Path) : M Path :=
  fun w =>
    match conda_cache w with
    | Some hit => (Ok hit, w)
    | None =>
        match func w with
        | (Ok value, w') => (Ok value, set_conda_cache (Some value) w')
        | (Raise e, w') => (Raise e, w')
        end
    end.

(** ** [isolate/backends/conda.py] *)

Record CondaEnvironment : Type := mkCondaEnvironment {
  packages : list pystr;
}.

(** The loop of [_get_conda_executable] over the places to look in. *)
Fixpoint conda_lookup `{Platform} (fs : FS) (places : list (option pystr))
  : option Path :=
  match places with
  | [] => None
  | path :: rest =>
      match shutil_which fs _CONDA_COMMAND path with
      | Some conda_path => Some conda_path
      | None => conda_lookup fs rest
      end
  end.

Definition _get_conda_executable `{Platform} : M Path :=
  cache_static
    (fun w =>
       match conda_lookup (fs w) [_ISOLATE_CONDA_HOME; None] with
       | Some conda_path => (Ok conda_path, w)
       | None =>
           (Raise (FileNotFoundError "Could not find conda executable."), w)
       end).

(** What [_get_conda_executable] finds in a world: the cached hit, or
    else the outcome of the lookup. *)
Definition conda_found `{Platform} (w : World) : option Path :=
  match conda_cache w with
  | Some hit => Some hit
  | None => conda_lookup (fs w) [_ISOLATE_CONDA_HOME; None]
  end.

(** [CondaEnvironment.key] *)
Definition key `{Platform} (self : CondaEnvironment) : result pystr :=
  match Codec.utf8_encode (str_join (lit " ") (packages self)) with
  | Some data => Ok (sha256_hexdigest data)
  | None => Raise UnicodeEncodeError
  end.

(** [self.context.get_cache_dir(self) / self.key]: the cache slot of an
    environment. *)
Definition cache_slot `{Platform} (self : CondaEnvironment) : result Path :=
  k ← key self; Ok (get_cache_dir // k).

(** The command line [create] hands to [subprocess.check_call]. *)
Definition conda_create_command (conda_executable path : Path)
    (self : CondaEnvironment) : list arg :=
  [ArgPath conda_executable; ArgStr (lit "create"); ArgStr (lit "--yes");
   ArgStr (lit "--prefix"); ArgPath path]
  ++ map ArgStr (packages self).

(** The body of the [with rmdir_on_fail(path):] block of [create]. *)
Definition provision `{Platform} (self : CondaEnvironment) (path : Path)
  : M unit :=
  do _ <- log "Creating the environment at '{}'" [ArgPath path] "info";
  do conda_executable <- _get_conda_executable;
  do _ <- (match packages self with
           | [] => ret tt
           | _ :: _ =>
               log "Installing packages: {}"
                 [ArgStr (str_join (lit ", ") (packages self))] "info"
           end);
  subprocess_check_call (conda_create_command conda_executable path self).

(** [CondaEnvironment.create] *)
Definition create `{Platform} (self : CondaEnvironment) (exist_ok : bool)
  : M Path :=
  do path <- lift (cache_slot self);
  do present <- (fun w => (Ok (path_exists (fs w) path), w));
  if present then
    if exist_ok then ret path
    else raise (FileExistsError path)
  else
    do _ <- rmdir_on_fail path (provision self path);
    ret path.

(** The world after the first log call of [provision]. *)
Definition announced (path : Path) (w : World) : World :=
  add_logged
    (mkLogEntry "Creating the environment at '{}'" [ArgPath path] "info") w.

(** The world just before [provision] runs the package manager. *)
Definition prepared (self : CondaEnvironment) (path conda : Path)
    (w : World) : World :=
  let w := set_conda_cache (Some conda) (announced path w) in
  match packages self with
  | [] => w
  | _ :: _ =>
      add_logged
        (mkLogEntry "Installing packages: {}"
           [ArgStr (str_join (lit ", ") (packages self))] "info") w
  end.

(** [CondaEnvironment.destroy] *)
Definition destroy (conn_info : Path) : M unit := shutil_rmtree conn_info.

(** ** [isolate/backends/remote.py] *)

Module Remote.

(** Modelled from the spec: the declarations of [LogLevel] and
    [LogSource] are not part of the sources at hand; section 3 lists the
    members. *)
Inductive LogLevel : Type := TRACE | INFO | WARN | ERROR.
Inductive LogSource : Type := BRIDGE | USER_STDOUT | USER_STDERR | BACKEND.

(** What the caller's sink receives from
    [self.log(message, level=..., source=...)]. *)
Record Log : Type := mkLog {
  message : pystr;
  level : LogLevel;
  source : LogSource;
}.

(** One message of the response stream ([PartialRunResult]). *)
Record PartialRunResult (RawLog SerializedObject : Type) : Type :=
  mkPartialRunResult {
    logs : list RawLog;
    result_ : SerializedObject;
    is_complete : bool;
  }.
Arguments mkPartialRunResult {RawLog SerializedObject}.
Arguments logs {RawLog SerializedObject}.
Arguments result_ {RawLog SerializedObject}.
Arguments is_complete {RawLog SerializedObject}.

(** The request ([BoundFunction]). *)
Record BoundFunction (SerializedObject EnvironmentDefinition : Type)
  : Type := mkBoundFunction {
    function : SerializedObject;
    environment : EnvironmentDefinition;
  }.
Arguments mkBoundFunction {SerializedObject EnvironmentDefinition}.

(** What [run] takes from [isolate.server] and from [grpc]. *)
Class Server : Type := {
  PyObject : Type;
  RawLog : Type;
  SerializedObject : Type;
  EnvironmentDefinition : Type;
  Channel : Type;
  (** [interface.from_grpc] on a log message *)
  log_from_grpc : RawLog -> Log;
  (** [interface.from_grpc] on a serialized object: the object it holds,
      returned, or raised when the object was serialized as raised *)
  object_from_grpc : SerializedObject -> result PyObject;
  (** [interface.to_serialized_object(obj, method=..., was_it_raised=...)] *)
  to_serialized_object : PyObject -> pystr -> bool -> SerializedObject;
  (** [grpc.insecure_channel(host)]; each call is recorded in the
      connection that makes it *)
  insecure_channel : pystr -> Channel;
  (** [IsolateStub(channel).Run(request)]: the messages the server streams
      back for a request *)
  stub_Run :
    Channel -> BoundFunction SerializedObject EnvironmentDefinition ->
    list (PartialRunResult RawLog SerializedObject);
}.

(** An [IsolateServerConnection] together with the sink that
    [self.log] writes to. *)
Record IsolateServerConnection `{Server} : Type := mkConnection {
  host : pystr;
  definition : EnvironmentDefinition;
  _channel : option Channel;
  (** [self.environment.settings.serialization_method] *)
  serialization_method : pystr;
  (** the logs delivered to the caller so far, oldest first *)
  sink : list Log;
  (** the channels this connection has opened, oldest first *)
  opened : list Channel;
}.

Arguments mkConnection {_} _ _ _ _ _ _.

Definition _acquire_channel `{Server} (self : IsolateServerConnection)
  : IsolateServerConnection :=
  mkConnection (host self) (definition self)
    (Some (insecure_channel (host self)))
    (serialization_method self) (sink self)
    (opened self ++ [insecure_channel (host self)]).

Definition log `{Server} (l : Log) (self : IsolateServerConnection)
  : IsolateServerConnection :=
  mkConnection (host self) (definition self) (_channel self)
    (serialization_method self) (sink self ++ [l]) (opened self).

(** [for raw_log in result.logs: ...] *)
Fixpoint forward_logs `{Server} (raw_logs : list RawLog)
    (self : IsolateServerConnection) : IsolateServerConnection :=
  match raw_logs with
  | [] => self
  | raw_log :: rest =>
      let l := log_from_grpc raw_log in
      forward_logs rest
        (log (mkLog (message l) (level l) (source l)) self)
  end.

(** Decoding the result of this message raises, and the loop gets to
    decode it. *)
Definition raises_on `{Server}
    (result : PartialRunResult RawLog SerializedObject) : bool :=
  is_complete result
  && match object_from_grpc (result_ result) with
     | Ok _ => false
     | Raise _ => true
     end.

(** The results the loop has collected when no decoding raised: those
    of the messages with [is_complete] set, in stream order. *)
Fixpoint collected `{Server}
    (stream : list (PartialRunResult RawLog SerializedObject))
  : list PyObject :=
  match stream with
  | [] => []
  | result :: rest =>
      if is_complete result then
        match object_from_grpc (result_ result) with
        | Ok value => value :: collected rest
        | Raise _ => collected rest
        end
      else collected rest
  end.

(** [for result in stub.Run(request): ...]; an exception of
    [interface.from_grpc(result.result)] leaves the loop. *)
Fixpoint consume `{Server}
    (stream : list (PartialRunResult RawLog SerializedObject))
    (return_value : list PyObject) (self : IsolateServerConnection)
  : result (list PyObject) * IsolateServerConnection :=
  match stream with
  | [] => (Ok return_value, self)
  | result :: rest =>
      let self := forward_logs (logs result) self in
      if is_complete result then
        match object_from_grpc (result_ result) with
        | Ok value => consume rest (return_value ++ [value]) self
        | Raise e => (Raise e, self)
        end
      else consume rest return_value self
  end.

Definition NO_RESULT : string :=
  "No result object was received from the server (it never set is_complete to True).".
Definition MULTIPLE_RESULTS : string :=
  "Multiple result objects were received from the server (it set is_complete to True multiple times).".

(** The channel [run] talks over: the one at hand, or a fresh one. *)
Definition ensure_channel `{Server} (self : IsolateServerConnection)
  : Channel * IsolateServerConnection :=
  match _channel self with
  | None =>
      let self := _acquire_channel self in
      (insecure_channel (host self), self)
  | Some channel => (channel, self)
  end.

Definition request_for `{Server} (executable : PyObject)
    (self : IsolateServerConnection)
  : BoundFunction SerializedObject EnvironmentDefinition :=
  mkBoundFunction
    (to_serialized_object executable (serialization_method self) false)
    (definition self).

(** The response stream [run] iterates over. *)
Definition response_stream `{Server} (executable : PyObject)
    (self : IsolateServerConnection)
  : list (PartialRunResult RawLog SerializedObject) :=
  let '(channel, self) := ensure_channel self in
  stub_Run channel (request_for executable self).

(** [IsolateServerConnection.run] *)
Definition run `{Server} (executable : PyObject)
    (self : IsolateServerConnection)
  : result PyObject * IsolateServerConnection :=
  let '(channel, self) := ensure_channel self in
  let request := request_for executable self in
  match consume (stub_Run channel request) [] self with
  | (Raise e, self) => (Raise e, self)
  | (Ok return_value, self) =>
      match return_value with
      | [] => (Raise (RuntimeError NO_RESULT), self)
      | [value] => (Ok value, self)
      | _ :: _ :: _ => (Raise (RuntimeError MULTIPLE_RESULTS), self)
      end
  end.

End Remote.

(** ** The cache layout of the specification *)

(** Section 6 of the specification lays a materialized environment out
    as [bin/<runtime_bin>] and a marker file [.ready]; the conda backend
    names neither. *)
Definition ready_marker (root : Path) : Path := root // lit ".ready".
Definition runtime_bin (root : Path) : Path :=
  root // lit "bin" // lit "python".

Definition is_executable (fs : FS) (p : Path) : bool :=
  match fs !! p with
  | Some (File true) => true
  | _ => false
  end.

(** ** A concrete platform, for evaluating the model *)

Module Example.

(** A package manager that creates the prefix with its bookkeeping files,
    installs an interpreter only when packages are asked for (as
    [conda create] does), and exits with [status]; with a status other
    than zero it stops before installing anything. *)
Definition conda_program (status : Z) (cmd : list arg) (fs : FS) : FS * Z :=
  match cmd with
  | _ :: _ :: _ :: _ :: ArgPath prefix :: pkgs =>
      let meta := prefix // lit "conda-meta" in
      let fs1 :=
        <[meta // lit "history" := File false]>
          (<[meta := Dir]> (<[prefix := Dir]> fs)) in
      if (status =? 0)%Z then
        match pkgs with
        | [] => (fs1, 0%Z)
        | _ :: _ =>
            (<[prefix // lit "bin" // lit "python" := File true]>
               (<[prefix // lit "bin" := Dir]> fs1), 0%Z)
        end
      else (fs1, status)
  | _ => (fs, 2%Z)
  end.

(** [status] is the exit status of the package manager.  The digest is a
    stand-in that returns the code points of its input behind a tag. *)
Definition platform (status : Z) : Platform := {|
  sha256_hexdigest data := lit "digest-" ++ map Byte.to_N data;
  get_cache_dir := [lit "cache"; lit "conda"];
  shutil_which fs cmd path :=
    let candidate := [lit "usr"; lit "bin"; cmd] in
    match fs !! candidate with
    | Some (File true) => Some candidate
    | _ => None
    end;
  run_process := conda_program status;
  interrupted _ _ := false;
  _CONDA_COMMAND := lit "conda";
  _ISOLATE_CONDA_HOME := None;
  pathsep := lit ":";
  purelib base :=
    concat (map (fun c => lit "/" ++ c) base)
    ++ lit "/lib/python3.9/site-packages";
|}.

(** A machine with [conda] installed and an empty cache. *)
Definition fresh : World :=
  mkWorld
    (<[[lit "usr"; lit "bin"; lit "conda"] := File true]>
       (<[[lit "usr"; lit "bin"] := Dir]>
          (<[[lit "usr"] := Dir]> (<[[lit "cache"; lit "conda"] := Dir]>
             (<[[lit "cache"] := Dir]> ∅)))))
    [] [] None.

(** The same machine without [conda]. *)
Definition bare : World :=
  mkWorld (<[[lit "cache"; lit "conda"] := Dir]> (<[[lit "cache"] := Dir]> ∅))
    [] [] None.

Definition no_packages : CondaEnvironment := mkCondaEnvironment [].
Definition numpy : CondaEnvironment := mkCondaEnvironment [lit "numpy"].

Definition conda_bin : Path := [lit "usr"; lit "bin"; lit "conda"].
Definition no_packages_slot : Path :=
  [lit "cache"; lit "conda"; lit "digest-"].
Definition numpy_slot : Path :=
  [lit "cache"; lit "conda"; lit "digest-numpy"].

(** A machine where the slot of [numpy] is an empty directory. *)
Definition stale : World :=
  mkWorld (<[numpy_slot := Dir]> (fs fresh)) [] [] None.

(** The machine after [numpy] was materialized successfully. *)
Definition with_numpy : World :=
  (@create (platform 0) numpy false fresh).2.

(** A server that answers every request with [stream]; logs and
    objects travel undecoded. *)
Definition server (stream : list (Remote.PartialRunResult Remote.Log N))
  : Remote.Server := {|
  Remote.PyObject := N;
  Remote.RawLog := Remote.Log;
  Remote.SerializedObject := N;
  Remote.EnvironmentDefinition := unit;
  Remote.Channel := pystr;
  Remote.log_from_grpc l := l;
  Remote.object_from_grpc o := Ok o;
  Remote.to_serialized_object o _ _ := o;
  Remote.insecure_channel h := h;
  Remote.stub_Run _ _ := stream;
|}.

Definition out (text : string) : Remote.Log :=
  Remote.mkLog (lit text) Remote.INFO Remote.USER_STDOUT.

(** Two log lines, then a third one together with the result. *)
Definition one_result : list (Remote.PartialRunResult Remote.Log N) :=
  [Remote.mkPartialRunResult [out "a"; out "b"] 0%N false;
   Remote.mkPartialRunResult [out "c"] 3%N true].

(** A stream that ends without a result, and one with two of them. *)
Definition no_result : list (Remote.PartialRunResult Remote.Log N) :=
  [Remote.mkPartialRunResult [out "a"] 0%N false].
Definition two_results : list (Remote.PartialRunResult Remote.Log N) :=
  [Remote.mkPartialRunResult [] 3%N true;
   Remote.mkPartialRunResult [out "a"] 4%N true].

Definition connection (stream : list (Remote.PartialRunResult Remote.Log N))
  : @Remote.IsolateServerConnection (server stream) :=
  @Remote.mkConnection (server stream) (lit "localhost:50001") tt None
    (lit "pickle") [] [].

End Example.

(** Equality of bytes is decidable. *)
Global Instance byte_eq_decision : EqDecision byte := Byte.byte_eq_dec.

(** The bytes, and the characters, that the base64 decoder takes notice
    of: the alphabet and the padding character. *)
Definition is_base64_byte (b : byte) : bool :=
  bool_decide (b ∈ Codec.BASE64_PAD :: Codec.alphabet).
Definition is_base64_char (c : N) : bool :=
  bool_decide (c ∈ map Byte.to_N (Codec.BASE64_PAD :: Codec.alphabet)).

(** ** [isolate/backends/common.py]: the reader of the log pipe *)

Module LogPipe.

(** [str.isspace] on one code point: the characters [str.rstrip()]
    removes. *)
Definition isspace (c : N) : bool :=
  ((0x09 <=? c) && (c <=? 0x0D)
   || (0x1C <=? c) && (c <=? 0x20)
   || (c =? 0x85) || (c =? 0xA0) || (c =? 0x1680)
   || (0x2000 <=? c) && (c <=? 0x200A)
   || (c =? 0x2028) || (c =? 0x2029) || (c =? 0x202F)
   || (c =? 0x205F) || (c =? 0x3000))%N.

(** [s.rstrip()] *)
Fixpoint rstrip (s : pystr) : pystr :=
  match s with
  | [] => []
  | c :: s' =>
      match rstrip s' with
      | [] => if isspace c then [] else [c]
      | kept => c :: kept
      end
  end.

(** The [while] loop of [_reader]: [reads] are the results of
    [stream.readline()] at the successive wake-ups before termination is
    requested, [hooked] the arguments [hook] has received so far. *)
Fixpoint poll (reads : list pystr) (hooked : list pystr) : list pystr :=
  match reads with
  | [] => hooked
  | line :: rest =>
      match line with
      | [] => poll rest hooked
      | _ :: _ => poll rest (hooked ++ [rstrip line])
      end
  end.

(** The [for] loop of [_reader] over [stream.readlines()]. *)
Fixpoint drain (remaining : list pystr) (hooked : list pystr) : list pystr :=
  match remaining with
  | [] => hooked
  | line :: rest => drain rest (hooked ++ [rstrip line])
  end.

(** The body of the thread started by [_observe_reader]. *)
Definition _reader (reads remaining : list pystr) (hooked : list pystr)
  : list pystr :=
  drain remaining (poll reads hooked).

End LogPipe.

(** ** [isolate/connections/common.py] *)

Module Serialization.

(** What [importlib] and the imported backends give.  [PyError] are the
    exception objects they raise. *)
Class Backends : Type := {
  PyObject : Type;
  PyModule : Type;
  PyError : Type;
  (** [importlib.import_module(name)] *)
  import_module : pystr -> PyError + PyModule;
  (** [backend.__name__] *)
  module_name : PyModule -> pystr;
  (** [hasattr(backend, "loads")] and [hasattr(backend, "dumps")] *)
  has_loads : PyModule -> bool;
  has_dumps : PyModule -> bool;
  (** [backend.loads(data)] and [backend.dumps(obj)] *)
  loads : PyModule -> pybytes -> PyError + PyObject;
  dumps : PyModule -> PyObject -> PyError + pybytes;
  (** the object as an exception instance, when it is one *)
  as_exception : PyObject -> option PyError;
}.

(** What a step can fail with: an exception from outside, or the
    [TypeError] of [as_serialization_method]. *)
Inductive cause `{Backends} : Type :=
| Foreign (e : PyError)
| MissingMethods (msg : pystr).

Inductive failure `{Backends} : Type :=
(** [SerializationError(msg)], raised [from] its cause *)
| SerializationError (msg : pystr) (from : cause)
(** the loaded object, raised *)
| Reraised (e : PyError)
(** [raise] of an object that is no exception *)
| NotAnException.

Inductive outcome `{Backends} (A : Type) : Type :=
| Returned (a : A)
| Failed (f : failure).
Arguments Returned {_ A} a.
Arguments Failed {_ A} f.

(** [with _step(message): body] *)
Definition _step `{Backends} {A} (message : pystr) (body : cause + A)
  : outcome A :=
  match body with
  | inr a => Returned a
  | inl exception =>
      Failed (SerializationError (lit "Error while " ++ message) exception)
  end.

Definition as_serialization_method `{Backends} (backend : PyModule)
  : cause + PyModule :=
  if negb (has_loads backend) || negb (has_dumps backend) then
    inl (MissingMethods
           (lit "The given serialization backend (" ++ module_name backend
            ++ lit ") does not have one of the required methods (loads/dumps)."))
  else inr backend.

(** [f"preparing the serialization backend ({serialization_method})"] *)
Definition preparing (serialization_method : pystr) : pystr :=
  lit "preparing the serialization backend (" ++ serialization_method
  ++ lit ")".

(** The first step of both functions. *)
Definition prepare_backend `{Backends} (serialization_method : pystr)
  : outcome PyModule :=
  _step (preparing serialization_method)
    (match import_module serialization_method with
     | inl e => inl (Foreign e)
     | inr backend => as_serialization_method backend
     end).

Definition foreign `{Backends} {A} (r : PyError + A) : cause + A :=
  match r with
  | inl e => inl (Foreign e)
  | inr a => inr a
  end.

Definition load_serialized_object `{Backends} (serialization_method : pystr)
    (raw_object : pybytes) (was_it_raised : bool) : outcome PyObject :=
  match prepare_backend serialization_method with
  | Failed f => Failed f
  | Returned serialization_backend =>
      match _step (lit "deserializing the given object")
              (foreign (loads serialization_backend raw_object)) with
      | Failed f => Failed f
      | Returned result =>
          if was_it_raised then
            match as_exception result with
            | Some e => Failed (Reraised e)
            | None => Failed NotAnException
            end
          else Returned result
      end
  end.

Definition serialize_object `{Backends} (serialization_method : pystr)
    (object : PyObject) : outcome pybytes :=
  match prepare_backend serialization_method with
  | Failed f => Failed f
  | Returned serialization_backend =>
      _step (lit "serializing the given object")
        (foreign (dumps serialization_backend object))
  end.

End Serialization.

(** ** [isolate/registry.py] *)

Module Registry.

(** The environment classes that can be registered.  A configuration is
    a [Dict[str, Any]]. *)
Class Environments : Type := {
  EnvClass : Type;
  Environment : Type;
  ConfigValue : Type;
  (** [cls.from_config(config)] *)
  from_config : EnvClass -> gmap pystr ConfigValue -> Environment;
}.

Record EntryPoint `{Environments} : Type := mkEntryPoint {
  group : pystr;
  name : pystr;
  (** [entry_point.load()] *)
  load : EnvClass;
}.
Arguments mkEntryPoint {_} _ _ _.

Definition _ENTRY_POINT : pystr := lit "isolate.backends".

(** [entry_points.select(group=group)] *)
Definition select `{Environments} (wanted : pystr)
    (entry_points : list EntryPoint) : list EntryPoint :=
  List.filter (fun entry_point => bool_decide (group entry_point = wanted))
    entry_points.

(** [{entry_point.name: entry_point.load() for entry_point in selected}]:
    a later entry point replaces an earlier one of the same name. *)
Fixpoint comprehension `{Environments} (selected : list EntryPoint)
    (built : gmap pystr EnvClass) : gmap pystr EnvClass :=
  match selected with
  | [] => built
  | entry_point :: rest =>
      comprehension rest (<[name entry_point := load entry_point]> built)
  end.

(** [_reload_registry]: [_ENVIRONMENT_REGISTRY.update(...)] on the
    registry at hand. *)
Definition _reload_registry `{Environments}
    (entry_points : list EntryPoint) (_ENVIRONMENT_REGISTRY : gmap pystr EnvClass)
  : gmap pystr EnvClass :=
  comprehension (select _ENTRY_POINT entry_points) ∅ ∪ _ENVIRONMENT_REGISTRY.

(** [ValueError(f"Unknown environment: '{kind}'")] *)
Inductive error : Type :=
| UnknownEnvironment (kind : pystr).

(** [config or {}] *)
Definition or_empty `{Environments} (config : option (gmap pystr ConfigValue))
  : gmap pystr ConfigValue :=
  match config with
  | None => ∅
  | Some given => if bool_decide (given = ∅) then ∅ else given
  end.

Definition prepare_environment `{Environments}
    (_ENVIRONMENT_REGISTRY : gmap pystr EnvClass) (kind : pystr)
    (config : option (gmap pystr ConfigValue)) : error + Environment :=
  match _ENVIRONMENT_REGISTRY !! kind with
  | None => inl (UnknownEnvironment kind)
  | Some registered_env_cls =>
      inr (from_config registered_env_cls (or_empty config))
  end.

End Registry.

(** ** [isolate/backends/remote.py]: the end of a connection *)

Module RemoteTeardown.
Import Remote.

(** [_release_channel]; closing the channel leaves no trace in the
    connection but the empty slot. *)
Definition _release_channel `{Server} (self : IsolateServerConnection)
  : IsolateServerConnection :=
  match _channel self with
  | Some _ =>
      mkConnection (host self) (definition self) None
        (serialization_method self) (sink self) (opened self)
  | None => self
  end.

Definition __exit__ `{Server} (self : IsolateServerConnection)
  : IsolateServerConnection :=
  _release_channel self.

End RemoteTeardown.

(** ** More concrete instances, for evaluating the model *)

Module Demo.

(** Two importable backends: [pickle], which writes text as UTF-8 and
    reads it back, and [writer], which lacks [loads].  Objects are
    texts; those that start with [E] are exception instances. *)
Definition backends : Serialization.Backends := {|
  Serialization.PyObject := pystr;
  Serialization.PyModule := bool;
  Serialization.PyError := pystr;
  Serialization.import_module name :=
    if bool_decide (name = lit "pickle") then inr true
    else if bool_decide (name = lit "writer") then inr false
    else inl (lit "ModuleNotFoundError");
  Serialization.module_name backend :=
    if backend then lit "pickle" else lit "writer";
  Serialization.has_loads backend := backend;
  Serialization.has_dumps _ := true;
  Serialization.loads _ data :=
    match Codec.utf8_decode data with
    | Some text => inr text
    | None => inl (lit "UnpicklingError")
    end;
  Serialization.dumps _ obj :=
    match Codec.utf8_encode obj with
    | Some data => inr data
    | None => inl (lit "PicklingError")
    end;
  Serialization.as_exception obj :=
    match obj with
    | 69%N :: _ => Some obj
    | _ => None
    end;
|}.


(** A server whose serialized objects are either a value to return or
    an exception to raise. *)
Definition raising_server
    (stream : list (Remote.PartialRunResult Remote.Log (result N)))
  : Remote.Server := {|
  Remote.PyObject := N;
  Remote.RawLog := Remote.Log;
  Remote.SerializedObject := result N;
  Remote.EnvironmentDefinition := unit;
  Remote.Channel := pystr;
  Remote.log_from_grpc l := l;
  Remote.object_from_grpc o := o;
  Remote.to_serialized_object o _ _ := Ok o;
  Remote.insecure_channel h := h;
  Remote.stub_Run _ _ := stream;
|}.

Definition raising_connection
    (stream : list (Remote.PartialRunResult Remote.Log (result N)))
  : @Remote.IsolateServerConnection (raising_server stream) :=
  @Remote.mkConnection (raising_server stream) (lit "localhost:50001") tt
    None (lit "pickle") [] [].

(** The user's function raised: two log lines, the raised exception as
    the one terminal message, and a late log line. *)
Definition one_raised : list (Remote.PartialRunResult Remote.Log (result N)) :=
  [Remote.mkPartialRunResult [Example.out "a"; Example.out "b"]
     (Raise (ValueError "boom")) true;
   Remote.mkPartialRunResult [Example.out "late"] (Ok 0%N) false].

(** Two terminal messages, the first of them raised. *)
Definition raised_then_result
  : list (Remote.PartialRunResult Remote.Log (result N)) :=
  [Remote.mkPartialRunResult [] (Raise (ValueError "boom")) true;
   Remote.mkPartialRunResult [] (Ok 3%N) true].

End Demo.

(** * Properties *)

(** ** The model on concrete inputs *)

Example utf8_encode_euro :
  Codec.utf8_encode [0x20AC%N] = Some [xe2; x82; xac].
Proof. reflexivity. Qed.

Example utf8_decode_rejects_surrogate :
  Codec.utf8_decode [xed; xa0; x80] = None.
Proof. reflexivity. Qed.

Example utf8_decode_rejects_overlong :
  Codec.utf8_decode [xc0; x80] = None.
Proof. reflexivity. Qed.

Example encode_hello :
  encode_service_address (PyStr (lit "hello")) = Ok (lit "aGVsbG8=").
Proof. reflexivity. Qed.

Example decode_hello :
  decode_service_address (lit "aGVsbG8=") = Ok (lit "hello").
Proof. reflexivity. Qed.

Example decode_unpadded :
  decode_service_address (lit "aGVsbG8")
  = Raise (BinasciiError "Incorrect padding").
Proof. reflexivity. Qed.

Example encode_lone_surrogate :
  encode_service_address (PyStr [0xD800%N]) = Raise UnicodeEncodeError.
Proof. reflexivity. Qed.

Example python_path_for_two :
  @python_path_for (Example.platform 0) [[lit "env"]; [lit "base"]]
  = Ok (lit "/env/lib/python3.9/site-packages:/base/lib/python3.9/site-packages").
Proof. reflexivity. Qed.

Example run_without_result :
  (@Remote.run (Example.server Example.no_result) 7%N
     (Example.connection Example.no_result)).1
  = Raise (RuntimeError Remote.NO_RESULT).
Proof. reflexivity. Qed.

Example run_with_two_results :
  (@Remote.run (Example.server Example.two_results) 7%N
     (Example.connection Example.two_results)).1
  = Raise (RuntimeError Remote.MULTIPLE_RESULTS).
Proof. reflexivity. Qed.

Example create_without_conda :
  (@create (Example.platform 0) Example.numpy false Example.bare).1
  = Raise (FileNotFoundError "Could not find conda executable.").
Proof. reflexivity. Qed.

(** ** The codecs *)

Module CodecFacts.
Import Codec.

Ltac divlia := zify; Z.to_euclidean_division_equations; lia.

Ltac if_true :=
  match goal with
  | |- context [if ?b then _ else _] =>
      let H := fresh in assert (H : b = true); [ | rewrite H; clear H]
  end.

Ltac if_false :=
  match goal with
  | |- context [if ?b then _ else _] =>
      let H := fresh in assert (H : b = false); [ | rewrite H; clear H]
  end.

Lemma to_N_byte_of_N n : (n < 256)%N -> Byte.to_N (byte_of_N n) = n.
Proof.
  intros Hn. unfold byte_of_N. rewrite N.mod_small by exact Hn.
  destruct (Byte.of_N n) as [b|] eqn:E.
  - by apply Byte.to_of_N.
  - apply Byte.of_N_None_iff in E. lia.
Qed.

Lemma byte_of_N_to_N b : byte_of_N (Byte.to_N b) = b.
Proof.
  unfold byte_of_N. pose proof (Byte.to_N_bounded b).
  rewrite N.mod_small by lia. by rewrite Byte.of_to_N.
Qed.

Lemma to_N_lt b : (Byte.to_N b < 256)%N.
Proof. pose proof (Byte.to_N_bounded b). lia. Qed.

(** *** UTF-8 *)

Lemma is_cont_low6 r : (r < 64)%N -> is_cont (0x80 + r) = true.
Proof.
  intros. unfold is_cont. apply andb_true_intro.
  split; apply N.leb_le; lia.
Qed.

Lemma is_cont_range n : is_cont n = true -> (0x80 <= n <= 0xBF)%N.
Proof.
  unfold is_cont. intros [H1 H2]%andb_prop.
  apply N.leb_le in H1, H2. lia.
Qed.

Lemma encodable_spec c :
  encodable c = true <->
  (c < 0x110000 /\ ~ (0xD800 <= c <= 0xDFFF))%N.
Proof.
  unfold encodable, is_surrogate.
  rewrite andb_true_iff, negb_true_iff, andb_false_iff.
  rewrite N.ltb_lt, !N.leb_gt. lia.
Qed.

Lemma utf8_encode_char_is_Some c :
  is_Some (utf8_encode_char c) <-> encodable c = true.
Proof.
  rewrite encodable_spec. unfold utf8_encode_char, is_surrogate.
  destruct (N.ltb_spec c 0x80); [split; [lia|eauto]|].
  destruct (N.ltb_spec c 0x800); [split; [lia|eauto]|].
  destruct (N.ltb_spec c 0x10000).
  - destruct (N.leb_spec 0xD800 c), (N.leb_spec c 0xDFFF); cbn [andb];
      first [ split; [intros _; lia | eauto]
            | split; [by intros [? [=]] | lia] ].
  - destruct (N.ltb_spec c 0x110000);
      first [ split; [intros _; lia | eauto]
            | split; [by intros [? [=]] | lia] ].
Qed.

(** Decoding the encoding of one character gives the character back and
    leaves the rest of the input. *)
Lemma utf8_decode_encode_char c l rest :
  utf8_encode_char c = Some l ->
  utf8_decode (l ++ rest) = cons c <$> utf8_decode rest.
Proof.
  unfold utf8_encode_char.
  destruct (N.ltb_spec c 0x80) as [H1|H1].
  { intros [= <-]. cbn [utf8_decode app].
    rewrite to_N_byte_of_N by lia.
    if_true; [apply N.ltb_lt; lia|]. done. }
  destruct (N.ltb_spec c 0x800) as [H2|H2].
  { intros [= <-]. cbn [utf8_decode app].
    rewrite !to_N_byte_of_N by divlia.
    if_false; [apply N.ltb_ge; divlia|].
    if_false; [apply N.ltb_ge; divlia|].
    if_true; [apply N.ltb_lt; divlia|].
    if_true; [apply is_cont_low6; divlia|].
    do 2 f_equal. divlia. }
  destruct (N.ltb_spec c 0x10000) as [H3|H3].
  { destruct (is_surrogate c) eqn:Hs; [done|].
    intros [= <-]. cbn [utf8_decode app].
    rewrite !to_N_byte_of_N by divlia.
    do 3 (if_false; [apply N.ltb_ge; divlia|]).
    if_true; [apply N.ltb_lt; divlia|].
    assert (Hc : ((0xE0 + c / 4096 - 0xE0) * 4096
                  + (0x80 + (c / 64) mod 64 - 0x80) * 64
                  + (0x80 + c mod 64 - 0x80) = c)%N) by divlia.
    cbv zeta. rewrite Hc, Hs.
    rewrite !is_cont_low6 by divlia.
    if_true; [cbn; rewrite andb_true_r; apply N.leb_le; lia|]. done. }
  destruct (N.ltb_spec c 0x110000) as [H4|H4]; [|done].
  intros [= <-]. cbn [utf8_decode app].
  rewrite !to_N_byte_of_N by divlia.
  do 4 (if_false; [apply N.ltb_ge; divlia|]).
  if_true; [apply N.ltb_lt; divlia|].
  assert (Hc : ((0xF0 + c / 262144 - 0xF0) * 262144
                + (0x80 + (c / 4096) mod 64 - 0x80) * 4096
                + (0x80 + (c / 64) mod 64 - 0x80) * 64
                + (0x80 + c mod 64 - 0x80) = c)%N) by divlia.
  cbv zeta. rewrite Hc.
  rewrite !is_cont_low6 by divlia.
  if_true; [|done].
  cbn [andb]. apply andb_true_intro.
  split; [apply N.leb_le|apply N.ltb_lt]; lia.
Qed.

Lemma utf8_decode_encode s bs :
  utf8_encode s = Some bs -> utf8_decode bs = Some s.
Proof.
  revert bs. induction s as [|c s IH]; intros bs; cbn [utf8_encode].
  - by intros [= <-].
  - destruct (utf8_encode_char c) as [l|] eqn:Hc; [|done].
    destruct (utf8_encode s) as [rest|]; [|done].
    intros [= <-]. rewrite (utf8_decode_encode_char _ _ _ Hc).
    by rewrite (IH rest eq_refl).
Qed.

Lemma utf8_encode_is_Some s :
  is_Some (utf8_encode s) <-> Forall (fun c => encodable c = true) s.
Proof.
  induction s as [|c s IH]; cbn [utf8_encode].
  - split; [constructor | eauto].
  - rewrite Forall_cons, <- IH, <- utf8_encode_char_is_Some.
    destruct (utf8_encode_char c), (utf8_encode s); split;
      first [ by eauto | by intros [? [=]] | by intros [[? [=]] ?]
            | by intros [? [? [=]]] ].
Qed.

(** Whatever the strict decoder returns can be encoded again. *)
Lemma utf8_decode_encodable_aux n : forall bs s,
  (length bs <= n)%nat ->
  utf8_decode bs = Some s -> Forall (fun c => encodable c = true) s.
Proof.
  induction n as [|n IH]; intros bs s Hlen.
  { destruct bs; [|cbn in Hlen; lia]. intros [= <-]. constructor. }
  destruct bs as [|b0 r0]; [intros [= <-]; constructor|].
  cbn [utf8_decode]. cbn [length] in Hlen.
  pose proof (to_N_lt b0) as Hb0.
  destruct (N.ltb_spec (Byte.to_N b0) 0x80) as [H1|H1].
  { intros (s' & Hs' & ->)%fmap_Some. constructor.
    - apply encodable_spec. lia.
    - apply (IH r0); [lia|done]. }
  destruct (N.ltb_spec (Byte.to_N b0) 0xC2) as [H2|H2]; [done|].
  destruct (N.ltb_spec (Byte.to_N b0) 0xE0) as [H3|H3].
  { destruct r0 as [|b1 r1]; [done|]. cbn [length] in Hlen.
    destruct (is_cont (Byte.to_N b1)) eqn:Hc1; [|done].
    apply is_cont_range in Hc1.
    intros (s' & Hs' & ->)%fmap_Some. constructor.
    - apply encodable_spec. lia.
    - apply (IH r1); [lia|done]. }
  destruct (N.ltb_spec (Byte.to_N b0) 0xF0) as [H4|H4].
  { destruct r0 as [|b1 [|b2 r2]]; [done..|]. cbn [length] in Hlen.
    cbv zeta.
    match goal with |- (if ?b then _ else _) = _ -> _ =>
      destruct b eqn:Hb; [|done] end.
    apply andb_prop in Hb as [Hb Hsur]. apply andb_prop in Hb as [Hb Hlow].
    apply andb_prop in Hb as [Hc1%is_cont_range Hc2%is_cont_range].
    intros (s' & Hs' & ->)%fmap_Some. constructor.
    - unfold encodable. rewrite Hsur, andb_true_r. apply N.ltb_lt. lia.
    - apply (IH r2); [lia|done]. }
  destruct (N.ltb_spec (Byte.to_N b0) 0xF5) as [H5|H5]; [|done].
  destruct r0 as [|b1 [|b2 [|b3 r3]]]; [done..|]. cbn [length] in Hlen.
  cbv zeta.
  match goal with |- (if ?b then _ else _) = _ -> _ =>
    destruct b eqn:Hb; [|done] end.
  apply andb_prop in Hb as [Hb Hhi]. apply andb_prop in Hb as [Hb Hlow].
  intros (s' & Hs' & ->)%fmap_Some. constructor.
  - apply encodable_spec. apply N.ltb_lt in Hhi. apply N.leb_le in Hlow. lia.
  - apply (IH r3); [lia|done].
Qed.

Lemma utf8_decode_encodable bs s :
  utf8_decode bs = Some s -> Forall (fun c => encodable c = true) s.
Proof. apply (utf8_decode_encodable_aux (length bs)). lia. Qed.

(** *** Base64 *)

Lemma forall_below_spec n p :
  forall_below n p = true -> forall x, (x < N.of_nat n)%N -> p x = true.
Proof.
  induction n as [|n IH]; cbn [forall_below]; intros Hp x Hx; [lia|].
  apply andb_prop in Hp as [Hn Hrest].
  destruct (decide (x = N.of_nat n)) as [->|Hne]; [done|].
  apply IH; [done|lia].
Qed.

Lemma byte_forall1 (p : N -> bool) :
  forall_below 256 p = true ->
  forall a, (a < 256)%N -> p a = true.
Proof. intros Hp a Ha. by apply (forall_below_spec 256). Qed.

Lemma byte_forall2 (p : N -> N -> bool) :
  forall_below 256 (fun a => forall_below 256 (p a)) = true ->
  forall a b, (a < 256)%N -> (b < 256)%N -> p a b = true.
Proof.
  intros Hp a b Ha Hb.
  apply (forall_below_spec 256 (p a)); [|done].
  by apply (forall_below_spec 256 (fun a => forall_below 256 (p a))).
Qed.

Ltac by_bytes1 p :=
  apply (byte_forall1 p); [vm_compute; reflexivity | assumption].
Ltac by_bytes2 p :=
  apply (byte_forall2 p); [vm_compute; reflexivity | assumption..].

Section Sextets.
Variables a b c : N.
Hypothesis Ha : (a < 256)%N.
Hypothesis Hb : (b < 256)%N.
Hypothesis Hc : (c < 256)%N.

Lemma sextet0_lt : (N.shiftr a 2 < 64)%N.
Proof. apply N.ltb_lt. by_bytes1 (fun a => N.shiftr a 2 <? 64)%N. Qed.

Lemma sextet1_lt :
  (N.lor (N.shiftl (N.land a 3) 4) (N.shiftr b 4) < 64)%N.
Proof.
  apply N.ltb_lt.
  by_bytes2 (fun a b =>
    N.lor (N.shiftl (N.land a 3) 4) (N.shiftr b 4) <? 64)%N.
Qed.

Lemma sextet1_tail_lt : (N.shiftl (N.land a 3) 4 < 64)%N.
Proof. apply N.ltb_lt. by_bytes1 (fun a => N.shiftl (N.land a 3) 4 <? 64)%N. Qed.

Lemma sextet2_lt :
  (N.lor (N.shiftl (N.land b 0xf) 2) (N.shiftr c 6) < 64)%N.
Proof.
  apply N.ltb_lt.
  by_bytes2 (fun b c =>
    N.lor (N.shiftl (N.land b 0xf) 2) (N.shiftr c 6) <? 64)%N.
Qed.

Lemma sextet2_tail_lt : (N.shiftl (N.land b 0xf) 2 < 64)%N.
Proof. apply N.ltb_lt. by_bytes1 (fun b => N.shiftl (N.land b 0xf) 2 <? 64)%N. Qed.

Lemma sextet3_lt : (N.land c 0x3f < 64)%N.
Proof. apply N.ltb_lt. by_bytes1 (fun c => N.land c 0x3f <? 64)%N. Qed.

(** The first output byte of a group. *)
Lemma join0 :
  N.lor (N.shiftl (N.shiftr a 2) 2)
        (N.shiftr (N.lor (N.shiftl (N.land a 3) 4) (N.shiftr b 4)) 4) = a.
Proof.
  apply N.eqb_eq.
  by_bytes2 (fun a b =>
    N.lor (N.shiftl (N.shiftr a 2) 2)
          (N.shiftr (N.lor (N.shiftl (N.land a 3) 4) (N.shiftr b 4)) 4)
    =? a)%N.
Qed.

Lemma join0_tail :
  N.lor (N.shiftl (N.shiftr a 2) 2)
        (N.shiftr (N.shiftl (N.land a 3) 4) 4) = a.
Proof.
  apply N.eqb_eq.
  by_bytes1 (fun a =>
    N.lor (N.shiftl (N.shiftr a 2) 2)
          (N.shiftr (N.shiftl (N.land a 3) 4) 4) =? a)%N.
Qed.

(** What the decoder keeps of the second sextet. *)
Lemma keep1 :
  N.land (N.lor (N.shiftl (N.land a 3) 4) (N.shiftr b 4)) 0x0f
  = N.shiftr b 4.
Proof.
  apply N.eqb_eq.
  by_bytes2 (fun a b =>
    N.land (N.lor (N.shiftl (N.land a 3) 4) (N.shiftr b 4)) 0x0f
    =? N.shiftr b 4)%N.
Qed.

Lemma join1 :
  N.lor (N.shiftl (N.shiftr b 4) 4)
        (N.shiftr (N.lor (N.shiftl (N.land b 0xf) 2) (N.shiftr c 6)) 2) = b.
Proof.
  apply N.eqb_eq.
  by_bytes2 (fun b c =>
    N.lor (N.shiftl (N.shiftr b 4) 4)
          (N.shiftr (N.lor (N.shiftl (N.land b 0xf) 2) (N.shiftr c 6)) 2)
    =? b)%N.
Qed.

Lemma join1_tail :
  N.lor (N.shiftl (N.shiftr b 4) 4)
        (N.shiftr (N.shiftl (N.land b 0xf) 2) 2) = b.
Proof.
  apply N.eqb_eq.
  by_bytes1 (fun b =>
    N.lor (N.shiftl (N.shiftr b 4) 4)
          (N.shiftr (N.shiftl (N.land b 0xf) 2) 2) =? b)%N.
Qed.

Lemma keep2 :
  N.land (N.lor (N.shiftl (N.land b 0xf) 2) (N.shiftr c 6)) 0x03
  = N.shiftr c 6.
Proof.
  apply N.eqb_eq.
  by_bytes2 (fun b c =>
    N.land (N.lor (N.shiftl (N.land b 0xf) 2) (N.shiftr c 6)) 0x03
    =? N.shiftr c 6)%N.
Qed.

Lemma join2 :
  N.lor (N.shiftl (N.shiftr c 6) 6) (N.land c 0x3f) = c.
Proof.
  apply N.eqb_eq.
  by_bytes1 (fun c =>
    N.lor (N.shiftl (N.shiftr c 6) 6) (N.land c 0x3f) =? c)%N.
Qed.
End Sextets.

(** The two tables are inverse on sextets, and no sextet is written as
    the padding character. *)
Lemma table_round_trip s :
  (s < 64)%N ->
  Byte.eqb (table_b2a_base64 s) BASE64_PAD = false
  /\ table_a2b_base64 (table_b2a_base64 s) = s.
Proof.
  intros Hs.
  assert (H : forall_below 64 (fun s =>
            negb (Byte.eqb (table_b2a_base64 s) BASE64_PAD)
            && (table_a2b_base64 (table_b2a_base64 s) =? s)%N) = true)
    by (vm_compute; reflexivity).
  apply (forall_below_spec 64) with (x := s) in H; [|exact Hs].
  apply andb_prop in H as [H1 H2].
  split; [by apply negb_true_iff|by apply N.eqb_eq].
Qed.

(** One data character through the decoder loop. *)
Lemma a2b_loop_data s rest quad_pos leftchar pads out :
  (s < 64)%N ->
  a2b_loop (table_b2a_base64 s :: rest) quad_pos leftchar pads out =
  match quad_pos with
  | 0 => a2b_loop rest 1 s 0 out
  | 1 =>
      a2b_loop rest 2 (N.land s 0x0f) 0
        (out ++ [byte_of_N (N.lor (N.shiftl leftchar 2) (N.shiftr s 4))])
  | 2 =>
      a2b_loop rest 3 (N.land s 0x03) 0
        (out ++ [byte_of_N (N.lor (N.shiftl leftchar 4) (N.shiftr s 2))])
  | _ =>
      a2b_loop rest 0 0 0
        (out ++ [byte_of_N (N.lor (N.shiftl leftchar 6) s)])
  end.
Proof.
  intros Hs. destruct (table_round_trip s Hs) as [Hpad Htab].
  cbn [a2b_loop]. rewrite Hpad, Htab.
  destruct (N.leb_spec 64 s); [lia|done].
Qed.

Lemma list_ind3 {A} (P : list A -> Prop) :
  P [] ->
  (forall a, P [a]) ->
  (forall a b, P [a; b]) ->
  (forall a b c rest, P rest -> P (a :: b :: c :: rest)) ->
  forall l, P l.
Proof.
  intros H0 H1 H2 H3. fix IH 1.
  intros [|a [|b [|c rest]]]; [done..|].
  apply H3, IH.
Qed.

(** Decoding what the encoder wrote gives the bytes back. *)
Lemma a2b_loop_b2a bs : forall out,
  a2b_loop (b2a_base64 bs) 0 0 0 out = Ok (out ++ bs).
Proof.
  induction bs as [|a|a b|a b c rest IH] using list_ind3; intros out.
  - cbn. by rewrite app_nil_r.
  - pose proof (to_N_lt a) as Ha.
    cbn [b2a_base64]. cbv zeta.
    rewrite a2b_loop_data by (by apply sextet0_lt).
    rewrite a2b_loop_data by (by apply sextet1_tail_lt).
    rewrite join0_tail by done. rewrite byte_of_N_to_N. done.
  - pose proof (to_N_lt a) as Ha. pose proof (to_N_lt b) as Hb.
    cbn [b2a_base64]. cbv zeta.
    rewrite a2b_loop_data by (by apply sextet0_lt).
    rewrite a2b_loop_data by (by apply sextet1_lt).
    rewrite a2b_loop_data by (by apply sextet2_tail_lt).
    rewrite join0, keep1, join1_tail by done.
    rewrite !byte_of_N_to_N. cbn. by rewrite <- app_assoc.
  - pose proof (to_N_lt a) as Ha. pose proof (to_N_lt b) as Hb.
    pose proof (to_N_lt c) as Hc.
    cbn [b2a_base64]. cbv zeta.
    rewrite a2b_loop_data by (by apply sextet0_lt).
    rewrite a2b_loop_data by (by apply sextet1_lt).
    rewrite a2b_loop_data by (by apply sextet2_lt).
    rewrite a2b_loop_data by (by apply sextet3_lt).
    rewrite join0, keep1, join1, keep2, join2 by done.
    rewrite !byte_of_N_to_N, IH.
    by rewrite <- !app_assoc.
Qed.

Lemma a2b_base64_b2a bs : a2b_base64 (b2a_base64 bs) = Ok bs.
Proof. unfold a2b_base64. by rewrite a2b_loop_b2a. Qed.

(** The encoder writes ASCII only. *)
Lemma table_b2a_ascii i : (Byte.to_N (table_b2a_base64 i) < 0x80)%N.
Proof.
  unfold table_b2a_base64.
  assert (H : forallb (fun x => Byte.to_N x <? 0x80)%N alphabet = true)
    by (vm_compute; reflexivity).
  rewrite forallb_forall in H.
  destruct (nth_in_or_default (N.to_nat i) alphabet x00) as [Hin|Hd].
  - by apply N.ltb_lt, H.
  - rewrite Hd. cbn. lia.
Qed.

Lemma b2a_base64_ascii bs :
  Forall (fun x => (Byte.to_N x < 0x80)%N) (b2a_base64 bs).
Proof.
  induction bs as [|a|a b|a b c rest IH] using list_ind3;
    cbn [b2a_base64]; cbv zeta;
    repeat first [ apply Forall_nil_2
                 | assumption
                 | apply Forall_cons; split;
                   [first [apply table_b2a_ascii | by vm_compute]|] ].
Qed.

(** ASCII bytes decode to their own values, and come back through
    [ascii_encode]. *)
Lemma utf8_decode_ascii bs :
  Forall (fun x => (Byte.to_N x < 0x80)%N) bs ->
  utf8_decode bs = Some (map Byte.to_N bs).
Proof.
  induction 1 as [|b bs Hb _ IH]; [done|].
  cbn [utf8_decode map]. apply N.ltb_lt in Hb. by rewrite Hb, IH.
Qed.

Lemma ascii_encode_to_N bs :
  Forall (fun x => (Byte.to_N x < 0x80)%N) bs ->
  ascii_encode (map Byte.to_N bs) = Some bs.
Proof.
  induction 1 as [|b bs Hb _ IH]; [done|].
  cbn [ascii_encode map]. apply N.ltb_lt in Hb.
  by rewrite Hb, IH, byte_of_N_to_N.
Qed.

End CodecFacts.

(** ** The remote facade *)

Section RemoteFacts.
Import Remote.
Context `{Server}.

Lemma forward_logs_spec raw_logs self :
  forward_logs raw_logs self =
  mkConnection (host self) (definition self) (_channel self)
    (serialization_method self)
    (sink self ++ map log_from_grpc raw_logs) (opened self).
Proof.
  revert self. induction raw_logs as [|raw rest IH]; intros self.
  - cbn. rewrite app_nil_r. by destruct self.
  - cbn [forward_logs map]. rewrite IH. unfold log. cbn.
    destruct (log_from_grpc raw). cbn. by rewrite <- app_assoc.
Qed.

(** The loop over a stream on which no decoding raises. *)
Lemma consume_all stream return_value self :
  List.find raises_on stream = None ->
  consume stream return_value self =
  (Ok (return_value ++ collected stream),
   mkConnection (host self) (definition self) (_channel self)
     (serialization_method self)
     (sink self ++ map log_from_grpc (concat (map logs stream)))
     (opened self)).
Proof.
  revert return_value self.
  induction stream as [|m rest IH]; intros return_value self Hfind.
  - cbn. rewrite !app_nil_r. by destruct self.
  - cbn [List.find] in Hfind. unfold raises_on in Hfind.
    cbn [consume collected map concat].
    destruct (is_complete m); cbn [andb] in Hfind.
    + destruct (object_from_grpc (result_ m)) as [value|e]; [|done].
      rewrite (IH _ _ Hfind), forward_logs_spec. cbn.
      by rewrite (map_app log_from_grpc), <- !app_assoc.
    + rewrite (IH _ _ Hfind), forward_logs_spec. cbn.
      by rewrite (map_app log_from_grpc), <- !app_assoc.
Qed.

(** The loop over a stream on which a decoding raises: it ends at the
    first message where that happens. *)
Lemma consume_raises pre m post e return_value self :
  List.find raises_on pre = None ->
  is_complete m = true ->
  object_from_grpc (result_ m) = Raise e ->
  consume (pre ++ m :: post) return_value self =
  (Raise e,
   mkConnection (host self) (definition self) (_channel self)
     (serialization_method self)
     (sink self ++ map log_from_grpc (concat (map logs (pre ++ [m]))))
     (opened self)).
Proof.
  revert return_value self.
  induction pre as [|p pre IH]; intros return_value self Hfind Hm He.
  - cbn [app consume]. rewrite Hm, He, forward_logs_spec. cbn.
    by rewrite app_nil_r.
  - cbn [List.find] in Hfind. unfold raises_on in Hfind.
    cbn [app consume map concat].
    destruct (is_complete p); cbn [andb] in Hfind.
    + destruct (object_from_grpc (result_ p)) as [value|e']; [|done].
      rewrite (IH _ _ Hfind Hm He), forward_logs_spec. cbn.
      by rewrite (map_app log_from_grpc), <- !app_assoc.
    + rewrite (IH _ _ Hfind Hm He), forward_logs_spec. cbn.
      by rewrite (map_app log_from_grpc), <- !app_assoc.
Qed.

Lemma find_raises_on stream m :
  List.find raises_on stream = Some m ->
  exists pre post e,
    stream = pre ++ m :: post
    /\ List.find raises_on pre = None
    /\ is_complete m = true
    /\ object_from_grpc (result_ m) = Raise e.
Proof.
  induction stream as [|p rest IH]; [done|]. cbn [List.find].
  destruct (raises_on p) eqn:Hp.
  - intros [= <-]. unfold raises_on in Hp.
    apply andb_prop in Hp as [Hc Hr].
    destruct (object_from_grpc (result_ p)) as [v|e] eqn:He; [done|].
    by exists [], rest, e.
  - intros (pre & post & e & -> & Hpre & Hm & He)%IH.
    exists (p :: pre), post, e. cbn [List.find]. by rewrite Hp.
Qed.

(** Where no decoding raises, the collected results are those of the
    messages with [is_complete] set. *)
Lemma collected_spec stream :
  List.find raises_on stream = None ->
  map Ok (collected stream)
  = map (fun m => object_from_grpc (result_ m))
      (List.filter is_complete stream).
Proof.
  induction stream as [|m rest IH]; [done|]. cbn [List.find].
  unfold raises_on at 1. cbn [collected List.filter].
  destruct (is_complete m); cbn [andb]; [|exact IH].
  destruct (object_from_grpc (result_ m)) as [v|e] eqn:Hm; [|done].
  intros Hfind. cbn [map]. by rewrite Hm, (IH Hfind).
Qed.

(** The connection [run] works on once it has a channel. *)
Lemma ensure_channel_spec self :
  (ensure_channel self).2 =
  mkConnection (host self) (definition self)
    (Some (ensure_channel self).1) (serialization_method self) (sink self)
    (opened self
     ++ match _channel self with
        | None => [insecure_channel (host self)]
        | Some _ => []
        end).
Proof.
  unfold ensure_channel, _acquire_channel.
  destruct self as [h d [ch|] sm sk op]; cbn; [|done].
  by rewrite app_nil_r.
Qed.

Lemma run_unfold executable self :
  run executable self =
  match consume (response_stream executable self) [] (ensure_channel self).2
  with
  | (Raise e, self') => (Raise e, self')
  | (Ok return_value, self') =>
      match return_value with
      | [] => (Raise (RuntimeError NO_RESULT), self')
      | [value] => (Ok value, self')
      | _ :: _ :: _ => (Raise (RuntimeError MULTIPLE_RESULTS), self')
      end
  end.
Proof.
  unfold run, response_stream, request_for.
  destruct (ensure_channel self) as [channel self1] eqn:He.
  assert (serialization_method self1 = serialization_method self
          /\ definition self1 = definition self) as [-> ->]; [|done].
  pose proof (ensure_channel_spec self) as Hs. rewrite He in Hs.
  cbn in Hs. by rewrite Hs.
Qed.

(** The outcome of [run] in terms of the stream. *)
Lemma run_outcome executable self :
  (run executable self).1 =
  match List.find raises_on (response_stream executable self) with
  | Some m => object_from_grpc (result_ m)
  | None =>
      match List.filter is_complete (response_stream executable self) with
      | [] => Raise (RuntimeError NO_RESULT)
      | [m] => object_from_grpc (result_ m)
      | _ :: _ :: _ => Raise (RuntimeError MULTIPLE_RESULTS)
      end
  end.
Proof.
  rewrite run_unfold.
  destruct (List.find raises_on (response_stream executable self))
    as [m|] eqn:Hfind.
  - destruct (find_raises_on _ _ Hfind)
      as (pre & post & e & Hs & Hpre & Hm & He).
    by rewrite Hs, (consume_raises _ _ _ _ _ _ Hpre Hm He), He.
  - rewrite (consume_all _ _ _ Hfind). cbn [app].
    pose proof (collected_spec _ Hfind) as Hc.
    destruct (List.filter is_complete (response_stream executable self))
      as [|m1 [|m2 rest]];
      destruct (collected (response_stream executable self))
        as [|v1 [|v2 values]]; try done.
    cbn in Hc. by injection Hc as <-.
Qed.

(** C1, as the code has it.  Where decoding the result of a message with
    [is_complete] set raises, [run] raises that exception at the first
    such message.  Where no decoding raises, [run] returns the decoded
    result of the one message with [is_complete] set; with no such
    message it raises a [RuntimeError] saying that no result was
    received, with more than one a [RuntimeError] saying that several
    were, and the two messages differ. *)
Theorem run_terminal_frames executable self :
  (run executable self).1 =
    match List.find raises_on (response_stream executable self) with
    | Some m => object_from_grpc (result_ m)
    | None =>
        match List.filter is_complete (response_stream executable self)
        with
        | [] => Raise (RuntimeError NO_RESULT)
        | [m] => object_from_grpc (result_ m)
        | _ :: _ :: _ => Raise (RuntimeError MULTIPLE_RESULTS)
        end
    end
  /\ NO_RESULT <> MULTIPLE_RESULTS.
Proof. split; [apply run_outcome|]. by vm_compute. Qed.

(** C2.  When [run] returns a result, the sink has received, after what
    it held before, the log records of all streamed messages, message
    by message and in the order of the stream. *)
Theorem run_forwards_logs executable self value self' :
  run executable self = (Ok value, self') ->
  sink self' =
    sink self
    ++ map log_from_grpc
         (concat (map logs (response_stream executable self))).
Proof.
  rewrite run_unfold.
  destruct (List.find raises_on (response_stream executable self))
    as [m|] eqn:Hfind.
  - destruct (find_raises_on _ _ Hfind)
      as (pre & post & e & Hs & Hpre & Hm & He).
    by rewrite Hs, (consume_raises _ _ _ _ _ _ Hpre Hm He).
  - rewrite (consume_all _ _ _ Hfind), ensure_channel_spec. cbn [app].
    destruct (collected (response_stream executable self))
      as [|v1 [|v2 values]]; [done| |done].
    by intros [= _ <-].
Qed.
End RemoteFacts.

Lemma run_forwards_logs_witness :
  Remote.sink
    (@Remote.run (Example.server Example.one_result) 7%N
       (Example.connection Example.one_result)).2
  = [Example.out "a"; Example.out "b"; Example.out "c"].
Proof.
  apply (@run_forwards_logs (Example.server Example.one_result) 7%N
           (Example.connection Example.one_result) 3%N).
  vm_compute. reflexivity.
Defined.

(** ** Search-path composition *)

Section PythonPath.
Context `{Platform}.

Lemma str_join_cons sep x rest :
  str_join sep (x :: rest) = x ++ concat (map (fun y => sep ++ y) rest).
Proof.
  revert x. induction rest as [|y rest IH]; intros x.
  - cbn. by rewrite app_nil_r.
  - change (str_join sep (x :: y :: rest))
      with (x ++ sep ++ str_join sep (y :: rest)).
    rewrite IH. cbn. by rewrite <- app_assoc.
Qed.

(** C8.  For a primary root and its inheritance list, [python_path_for]
    returns the pure-library directory of the primary, followed, for
    each inherited root in the given order, by the path separator and
    that root's pure-library directory. *)
Theorem python_path_for_order primary inherited :
  python_path_for (primary :: inherited) =
  Ok (purelib primary
      ++ concat (map (fun root => pathsep ++ purelib root) inherited)).
Proof.
  unfold python_path_for. cbn [length Nat.leb map].
  by rewrite str_join_cons, map_map.
Qed.

Lemma python_path_for_nil : python_path_for [] = Raise AssertionError.
Proof. done. Qed.

Lemma str_split_app sep (x rest : pystr) :
  sep ∉ x -> str_split sep (x ++ sep :: rest) = x :: str_split sep rest.
Proof.
  induction x as [|c x IH]; intros Hx; cbn [app str_split].
  - by rewrite N.eqb_refl.
  - apply not_elem_of_cons in Hx as [Hc Hx].
    destruct (N.eqb_spec c sep) as [->|_]; [done|]. by rewrite IH.
Qed.

Lemma str_split_whole sep (x : pystr) :
  sep ∉ x -> str_split sep x = [x].
Proof.
  induction x as [|c x IH]; intros Hx; cbn [str_split]; [done|].
  apply not_elem_of_cons in Hx as [Hc Hx].
  destruct (N.eqb_spec c sep) as [->|_]; [done|]. by rewrite IH.
Qed.

(** Where the separator is one character that no library directory
    contains, splitting the search path gives the library directories
    back, one per root and in the order of the roots. *)
Lemma python_path_for_split sep primary inherited :
  pathsep = [sep] ->
  Forall (fun root => sep ∉ purelib root) (primary :: inherited) ->
  python_path_for (primary :: inherited)
  = Ok (str_join pathsep (map purelib (primary :: inherited)))
  /\ str_split sep (str_join pathsep (map purelib (primary :: inherited)))
     = map purelib (primary :: inherited).
Proof.
  intros Hsep Hall. split; [done|]. rewrite Hsep.
  revert primary Hall. induction inherited as [|next rest IH];
    intros primary Hall; apply Forall_cons in Hall as [Hp Hrest].
  - by apply str_split_whole.
  - change (str_join [sep] (map purelib (primary :: next :: rest)))
      with (purelib primary
            ++ sep :: str_join [sep] (map purelib (next :: rest))).
    rewrite str_split_app by done. by rewrite IH.
Qed.
End PythonPath.

(** ** The conda fingerprint *)

Section Fingerprint.
Context `{Platform}.

(** C10.  The package lists ['a b'] and ['a', 'b'] are different, yet
    their keys are the same digest, and so are their cache slots. *)
Theorem key_not_injective :
  let one := mkCondaEnvironment [lit "a b"] in
  let two := mkCondaEnvironment [lit "a"; lit "b"] in
  one <> two
  /\ key one = key two
  /\ (exists k, key one = Ok k)
  /\ cache_slot one = cache_slot two.
Proof.
  cbv zeta. split; [done|]. unfold cache_slot, key. cbn. eauto.
Qed.
End Fingerprint.

(** ** The conda environment manager *)

Section CondaFacts.
Context `{Platform}.

Lemma without_tree_lookup (root : Path) (f : FS) (q : Path) :
  without_tree root f !! q =
  if decide (root `prefix_of` q) then None else f !! q.
Proof.
  unfold without_tree. case_decide as Hq.
  - apply map_lookup_filter_None. destruct (f !! q) eqn:E; [right|by left].
    intros x _ Hn. by apply Hn.
  - destruct (f !! q) as [x|] eqn:E.
    + by apply map_lookup_filter_Some.
    + apply map_lookup_filter_None. by left.
Qed.

Lemma path_exists_true (f : FS) (p : Path) :
  path_exists f p = true <-> is_Some (f !! p).
Proof. unfold path_exists. by rewrite bool_decide_eq_true. Qed.

Lemma path_exists_false (f : FS) (p : Path) :
  path_exists f p = false <-> f !! p = None.
Proof.
  unfold path_exists. rewrite bool_decide_eq_false.
  by rewrite eq_None_not_Some.
Qed.

Lemma get_conda_executable_spec w :
  _get_conda_executable w =
  match conda_found w with
  | Some conda_path => (Ok conda_path, set_conda_cache (Some conda_path) w)
  | None => (Raise (FileNotFoundError "Could not find conda executable."), w)
  end.
Proof.
  unfold _get_conda_executable, cache_static, conda_found.
  destruct w as [f sp lg [hit|]]; cbn -[conda_lookup]; [done|].
  by destruct (conda_lookup f [_ISOLATE_CONDA_HOME; None]).
Qed.

Lemma provision_spec self path w :
  provision self path w =
  match conda_found w with
  | None =>
      (Raise (FileNotFoundError "Could not find conda executable."),
       announced path w)
  | Some conda =>
      let cmd := conda_create_command conda path self in
      let after :=
        set_fs (run_process cmd (fs w)).1
          (add_spawned cmd (prepared self path conda w)) in
      if ((run_process cmd (fs w)).2 =? 0)%Z then (Ok tt, after)
      else if interrupted cmd (fs w) then (Raise KeyboardInterrupt, after)
      else (Raise (CalledProcessError (run_process cmd (fs w)).2 cmd),
            after)
  end.
Proof.
  unfold provision, bind, log. rewrite get_conda_executable_spec.
  change (conda_found (add_logged _ w)) with (conda_found w).
  destruct (conda_found w) as [conda|]; [|done].
  unfold subprocess_check_call, prepared, announced.
  destruct (packages self) as [|pkg pkgs]; cbn;
    destruct (run_process _ (fs w)) as [f rc]; cbn;
    (destruct (rc =? 0)%Z; [done|]);
    by destruct (interrupted _ (fs w)).
Qed.

Lemma create_spec self path exist_ok w :
  cache_slot self = Ok path ->
  create self exist_ok w =
  if path_exists (fs w) path then
    if exist_ok then (Ok path, w) else (Raise (FileExistsError path), w)
  else
    match provision self path w with
    | (Ok _, w1) => (Ok path, w1)
    | (Raise e, w1) =>
        if is_exception e && path_exists (fs w1) path then
          match shutil_rmtree path w1 with
          | (Ok _, w2) => (Raise e, w2)
          | (Raise e', w2) => (Raise e', w2)
          end
        else (Raise e, w1)
    end.
Proof.
  intros Hslot. unfold create, bind, lift. rewrite Hslot.
  destruct (path_exists (fs w) path); [by destruct exist_ok|].
  unfold rmdir_on_fail, try_except, bind, ret, raise.
  destruct (provision self path w) as [[[]|e] w1]; [done|].
  destruct (is_exception e); [|done]. cbn [andb].
  destruct (path_exists (fs w1) path); [|done].
  by destruct (shutil_rmtree path w1) as [[[]|e'] w2].
Qed.

Lemma provision_raises self path w e w1 :
  provision self path w = (Raise e, w1) ->
  (exists msg, e = FileNotFoundError msg)
  \/ (exists rc cmd, e = CalledProcessError rc cmd)
  \/ e = KeyboardInterrupt.
Proof.
  rewrite provision_spec.
  destruct (conda_found w); [|intros [= <- _]; eauto].
  cbv zeta. destruct (_ =? 0)%Z; [done|].
  destruct (interrupted _ _); intros [= <- _]; eauto 6.
Qed.

Lemma shutil_rmtree_spec path w :
  shutil_rmtree path w =
  match fs w !! path with
  | None => (Raise (FileNotFoundError "No such file or directory"), w)
  | Some (File _) => (Raise (NotADirectoryError path), w)
  | Some Dir => (Ok tt, set_fs (without_tree path (fs w)) w)
  end.
Proof. done. Qed.


(** C6.  With the slot on disk, [create] returns it unchanged under
    [exist_ok] (the world, and with it the list of spawned processes,
    is the same afterwards) and raises [FileExistsError] otherwise;
    without the slot on disk no [FileExistsError] is raised. *)
Theorem create_existing_slot self path w :
  cache_slot self = Ok path ->
  (path_exists (fs w) path = true ->
   create self true w = (Ok path, w)
   /\ create self false w = (Raise (FileExistsError path), w))
  /\ (path_exists (fs w) path = false ->
      forall exist_ok e w',
        create self exist_ok w = (Raise e, w') ->
        forall p, e <> FileExistsError p).
Proof.
  intros Hslot. split.
  - intros Hpresent. by rewrite !(create_spec _ _ _ _ Hslot), Hpresent.
  - intros Hfresh exist_ok e w' Hcreate p ->.
    rewrite (create_spec _ _ _ _ Hslot), Hfresh in Hcreate.
    destruct (provision self path w) as [[[]|e1] w1] eqn:Hprov; [done|].
    apply provision_raises in Hprov.
    destruct (is_exception e1 && path_exists (fs w1) path).
    + rewrite shutil_rmtree_spec in Hcreate.
      destruct (fs w1 !! path) as [[|x]|]; simplify_eq;
        destruct Hprov as [[? ?]|[[? [? ?]]|?]]; done.
    + simplify_eq. destruct Hprov as [[? ?]|[[? [? ?]]|?]]; done.
Qed.

(** C9, as the code has it.  With the slot not on disk, [create] returns
    exactly when a conda executable is found and the package manager
    exits with status zero; the runtime binary plays no part. *)
Theorem create_succeeds_iff self path exist_ok w :
  cache_slot self = Ok path ->
  path_exists (fs w) path = false ->
  (exists p w', create self exist_ok w = (Ok p, w'))
  <-> exists conda,
        conda_found w = Some conda
        /\ (run_process (conda_create_command conda path self) (fs w)).2
           = 0%Z.
Proof.
  intros Hslot Hfresh.
  rewrite (create_spec _ _ _ _ Hslot), Hfresh, provision_spec.
  destruct (conda_found w) as [conda|]; cbv zeta.
  - destruct (Z.eqb_spec
      (run_process (conda_create_command conda path self) (fs w)).2 0)
      as [Hrc|Hrc].
    + split; [eauto|]. intros _. eauto.
    + split.
      * intros (p & w' & Hc).
        repeat match type of Hc with
               | context [interrupted ?c ?f] =>
                   destruct (interrupted c f)
               | (if ?b then _ else _) = _ => destruct b
               | match ?x with _ => _ end = _ => destruct x
               end; done.
      * intros (c & [= <-] & Hz). done.
  - split.
    + intros (p & w' & Hc).
      repeat match type of Hc with
             | context [interrupted ?c ?f] =>
                 destruct (interrupted c f)
             | (if ?b then _ else _) = _ => destruct b
             | match ?x with _ => _ end = _ => destruct x
             end; done.
    + intros (c & [=] & _).
Qed.

(** C4, as the code has it.  After a successful [create] the returned
    path is the cache slot, and the world is either the one before (the
    slot was on disk and [exist_ok] was set) or has the file system the
    package manager left on exiting with status zero: [create] writes
    nothing of its own and inspects nothing of the result. *)
Theorem create_success_state self exist_ok w path w' :
  create self exist_ok w = (Ok path, w') ->
  cache_slot self = Ok path
  /\ ((path_exists (fs w) path = true /\ exist_ok = true /\ w' = w)
      \/ (path_exists (fs w) path = false
          /\ exists conda,
               conda_found w = Some conda
               /\ run_process (conda_create_command conda path self) (fs w)
                  = (fs w', 0%Z))).
Proof.
  intros Hcreate.
  destruct (cache_slot self) as [slot|e] eqn:Hslot;
    [|by unfold create, bind, lift in Hcreate; rewrite Hslot in Hcreate].
  rewrite (create_spec _ _ _ _ Hslot) in Hcreate.
  destruct (path_exists (fs w) slot) eqn:Hpresent.
  - destruct exist_ok; [|done]. injection Hcreate as -> ->. eauto.
  - rewrite provision_spec in Hcreate.
    destruct (conda_found w) as [conda|]; cbv zeta in Hcreate.
    + destruct (run_process (conda_create_command conda slot self) (fs w))
        as [f rc] eqn:Hrun. cbn in Hcreate.
      destruct (Z.eqb_spec rc 0) as [->|Hrc].
      * injection Hcreate as -> <-. split; [done|]. right.
        split; [done|]. exists conda. split; [done|]. by rewrite Hrun.
      * repeat match type of Hcreate with
               | context [interrupted ?c ?f] =>
                   destruct (interrupted c f)
               | (if ?b then _ else _) = _ => destruct b
               | match ?x with _ => _ end = _ => destruct x
               end; done.
    + repeat match type of Hcreate with
             | (if ?b then _ else _) = _ => destruct b
             | match ?x with _ => _ end = _ => destruct x
             end; done.
Qed.
End CondaFacts.

(** C7, as the code has it.  [destroy] on a root directory removes the
    root and everything below it and leaves the rest alone; a second
    [destroy] right after it raises [FileNotFoundError] and changes
    nothing. *)
Theorem destroy_twice (root : Path) (w : World) :
  fs w !! root = Some Dir ->
  exists w1,
    destroy root w = (Ok tt, w1)
    /\ (forall q : Path, root `prefix_of` q -> fs w1 !! q = None)
    /\ (forall q : Path, ¬ root `prefix_of` q -> fs w1 !! q = fs w !! q)
    /\ destroy root w1
       = (Raise (FileNotFoundError "No such file or directory"), w1).
Proof.
  intros Hdir. unfold destroy, shutil_rmtree. rewrite Hdir.
  eexists. split; [done|]. cbn.
  assert (Hgone : forall q : Path,
            root `prefix_of` q -> without_tree root (fs w) !! q = None).
  { intros q Hq. rewrite without_tree_lookup. by case_decide. }
  split; [done|]. split.
  - intros q Hq. rewrite without_tree_lookup. by case_decide.
  - by rewrite (Hgone root).
Qed.

(** ** The service address *)

Section Address.
Import Codec CodecFacts.

Lemma encode_text s raw :
  utf8_encode s = Some raw ->
  encode_service_address (PyStr s) = Ok (map Byte.to_N (b2a_base64 raw)).
Proof.
  intros Hs. unfold encode_service_address. cbn. rewrite Hs. cbn.
  unfold b64encode. by rewrite utf8_decode_ascii by apply b2a_base64_ascii.
Qed.

Lemma decode_encoded raw s :
  utf8_decode raw = Some s ->
  decode_service_address (map Byte.to_N (b2a_base64 raw)) = Ok s.
Proof.
  intros Hs. unfold decode_service_address, b64decode.
  rewrite ascii_encode_to_N by apply b2a_base64_ascii. cbn.
  rewrite a2b_base64_b2a. cbn. by rewrite Hs.
Qed.

Lemma round_trip_text s :
  Forall (fun c => encodable c = true) s ->
  address_round_trip (PyStr s) = Ok (PyStr s).
Proof.
  intros [raw Hraw]%utf8_encode_is_Some. unfold address_round_trip.
  rewrite (encode_text _ _ Hraw). cbn.
  by rewrite (decode_encoded _ _ (utf8_decode_encode _ _ Hraw)).
Qed.

Lemma encode_bytes b :
  encode_service_address (PyBytes b) =
  match utf8_decode b with
  | Some s => encode_service_address (PyStr s)
  | None => Raise UnicodeDecodeError
  end.
Proof. unfold encode_service_address. cbn. by destruct (utf8_decode b). Qed.

(** C5, as the code has it.  The round trip returns the text the address
    stands for: a [str] without lone surrogates comes back as it is, a
    [bytes] object holding UTF-8 comes back as the [str] it decodes to,
    and for every other input the encoding raises. *)
Theorem address_round_trip_text a :
  address_round_trip a =
  match address_text a with
  | Ok s => Ok (PyStr s)
  | Raise e => Raise e
  end.
Proof.
  destruct a as [b|s]; cbn [address_text].
  - unfold address_round_trip. rewrite encode_bytes.
    destruct (utf8_decode b) as [s|] eqn:Hb; [|done].
    apply utf8_decode_encodable in Hb. cbn [of_option].
    by apply round_trip_text.
  - destruct (forallb encodable s) eqn:Hs.
    + apply round_trip_text, Forall_forall. intros c Hc.
      rewrite forallb_forall in Hs. by apply Hs, list_elem_of_In.
    + assert (utf8_encode s = None) as Hnone.
      { apply eq_None_not_Some. intros Hsome%utf8_encode_is_Some.
        rewrite Forall_forall in Hsome.
        assert (forallb encodable s = true); [|congruence].
        apply forallb_forall. intros c Hc. by apply Hsome, list_elem_of_In. }
      unfold address_round_trip, encode_service_address. cbn.
      by rewrite Hnone.
Qed.
End Address.

(** A [bytes] address does not come back: the round trip returns a
    [str]. *)
Lemma address_round_trip_bytes_differ :
  address_round_trip (PyBytes ["a"%byte]) = Ok (PyStr (lit "a"))
  /\ address_round_trip (PyBytes ["a"%byte]) <> Ok (PyBytes ["a"%byte]).
Proof. split; [by vm_compute|]. by vm_compute. Qed.

(** ** The model at work on a concrete machine *)

Lemma outcome_eq {A B} (p : A * B) (a : A) : p.1 = a -> p = (a, p.2).
Proof. intros <-. by destruct p. Qed.



(** A stream whose one message with [is_complete] set holds a raised
    exception, and a stream with two such messages of which the first
    holds a raised exception: [run] raises that exception both times. *)
Lemma run_raises_decoded_exception :
  (length (List.filter Remote.is_complete Demo.one_raised) = 1%nat
   /\ (@Remote.run (Demo.raising_server Demo.one_raised) 7%N
         (Demo.raising_connection Demo.one_raised)).1
      = Raise (ValueError "boom"))
  /\ (length (List.filter Remote.is_complete Demo.raised_then_result)
      = 2%nat
      /\ (@Remote.run (Demo.raising_server Demo.raised_then_result) 7%N
            (Demo.raising_connection Demo.raised_then_result)).1
         = Raise (ValueError "boom")).
Proof. by vm_compute. Qed.

Lemma create_existing_slot_witness :
  (@create (Example.platform 0) Example.numpy true Example.with_numpy
   = (Ok Example.numpy_slot, Example.with_numpy)
   /\ @create (Example.platform 0) Example.numpy false Example.with_numpy
      = (Raise (FileExistsError Example.numpy_slot), Example.with_numpy))
  /\ (forall exist_ok e w',
        @create (Example.platform 1) Example.numpy exist_ok Example.fresh
        = (Raise e, w') ->
        forall p, e <> FileExistsError p).
Proof.
  split.
  - apply (@create_existing_slot (Example.platform 0) Example.numpy
             Example.numpy_slot Example.with_numpy);
      vm_compute; reflexivity.
  - apply (@create_existing_slot (Example.platform 1) Example.numpy
             Example.numpy_slot Example.fresh);
      vm_compute; reflexivity.
Defined.

Lemma create_succeeds_iff_witness :
  (exists p w',
     @create (Example.platform 0) Example.no_packages false Example.fresh
     = (Ok p, w'))
  <-> exists conda,
        @conda_found (Example.platform 0) Example.fresh = Some conda
        /\ (@run_process (Example.platform 0)
              (conda_create_command conda Example.no_packages_slot
                 Example.no_packages)
              (fs Example.fresh)).2 = 0%Z.
Proof.
  apply (@create_succeeds_iff (Example.platform 0) Example.no_packages
           Example.no_packages_slot false Example.fresh);
    vm_compute; reflexivity.
Defined.

Lemma create_success_state_witness :
  @cache_slot (Example.platform 0) Example.numpy = Ok Example.numpy_slot
  /\ ((path_exists (fs Example.fresh) Example.numpy_slot = true
       /\ false = true /\ Example.with_numpy = Example.fresh)
      \/ (path_exists (fs Example.fresh) Example.numpy_slot = false
          /\ exists conda,
               @conda_found (Example.platform 0) Example.fresh = Some conda
               /\ @run_process (Example.platform 0)
                    (conda_create_command conda Example.numpy_slot
                       Example.numpy)
                    (fs Example.fresh)
                  = (fs Example.with_numpy, 0%Z))).
Proof.
  apply (@create_success_state (Example.platform 0) Example.numpy false
           Example.fresh Example.numpy_slot Example.with_numpy).
  apply outcome_eq. vm_compute. reflexivity.
Defined.

Lemma destroy_twice_witness :
  exists w1,
    destroy Example.numpy_slot Example.with_numpy = (Ok tt, w1)
    /\ (forall q : Path,
          Example.numpy_slot `prefix_of` q -> fs w1 !! q = None)
    /\ (forall q : Path,
          ¬ Example.numpy_slot `prefix_of` q ->
          fs w1 !! q = fs Example.with_numpy !! q)
    /\ destroy Example.numpy_slot w1
       = (Raise (FileNotFoundError "No such file or directory"), w1).
Proof.
  apply (destroy_twice Example.numpy_slot Example.with_numpy).
  vm_compute. reflexivity.
Defined.

(** Two successful calls of [create] that leave no [.ready] marker: one
    provisions the environment, interpreter included; the other finds an
    empty directory in the slot and returns it under [exist_ok], with no
    interpreter in it either. *)
Lemma create_writes_no_marker :
  ((@create (Example.platform 0) Example.numpy false Example.fresh).1
   = Ok Example.numpy_slot
   /\ is_executable (fs Example.with_numpy)
        (runtime_bin Example.numpy_slot) = true
   /\ path_exists (fs Example.with_numpy)
        (ready_marker Example.numpy_slot) = false)
  /\ (@create (Example.platform 0) Example.numpy true Example.stale
      = (Ok Example.numpy_slot, Example.stale)
      /\ is_executable (fs Example.stale)
           (runtime_bin Example.numpy_slot) = false
      /\ path_exists (fs Example.stale)
           (ready_marker Example.numpy_slot) = false).
Proof. by vm_compute. Qed.

(** A package manager that exits with status zero and installs no
    interpreter: [create] returns all the same. *)
Lemma create_succeeds_without_runtime_bin :
  path_exists (fs Example.fresh) Example.no_packages_slot = false
  /\ (@run_process (Example.platform 0)
        (conda_create_command Example.conda_bin Example.no_packages_slot
           Example.no_packages)
        (fs Example.fresh)).2 = 0%Z
  /\ (@create (Example.platform 0) Example.no_packages false
        Example.fresh).1 = Ok Example.no_packages_slot
  /\ is_executable
       (fs (@create (Example.platform 0) Example.no_packages false
              Example.fresh).2)
       (runtime_bin Example.no_packages_slot) = false.
Proof. by vm_compute. Qed.

(** The second of two [destroy] calls in a row raises. *)
Lemma destroy_second_call_raises :
  (destroy Example.numpy_slot Example.with_numpy).1 = Ok tt
  /\ (destroy Example.numpy_slot
        (destroy Example.numpy_slot Example.with_numpy).2).1
     = Raise (FileNotFoundError "No such file or directory").
Proof. by vm_compute. Qed.

(** * Further properties of the code *)

(** ** The reader of the log pipe *)

Section LogPipeFacts.
Import LogPipe.

Lemma rstrip_spec (s : pystr) :
  (exists ws, s = rstrip s ++ ws /\ Forall (fun c => isspace c = true) ws)
  /\ (forall c, last (rstrip s) = Some c -> isspace c = false).
Proof.
  induction s as [|c s [(ws & Hs & Hws) Hlast]]; cbn [rstrip].
  - split; [by exists []|]. by intros c [=].
  - destruct (rstrip s) as [|k kept] eqn:Hk.
    + destruct (isspace c) eqn:Hc.
      * split; [|by intros ? [=]]. exists (c :: ws). cbn in Hs.
        split; [by rewrite Hs|by constructor].
      * split; [|by intros ? [= <-]]. exists ws. cbn in Hs.
        split; [by rewrite Hs|done].
    + split.
      * exists ws. split; [|done]. by rewrite Hs.
      * intros c'. rewrite last_cons_cons. apply Hlast.
Qed.

Lemma poll_spec reads hooked :
  poll reads hooked
  = hooked ++ map rstrip (filter (fun line => line <> []) reads).
Proof.
  revert hooked. induction reads as [|line rest IH]; intros hooked.
  - cbn. by rewrite app_nil_r.
  - cbn [poll]. destruct line as [|c line].
    + rewrite IH. by rewrite filter_cons_False by (intros H; by apply H).
    + rewrite IH, filter_cons_True by done. cbn [map].
      by rewrite <- app_assoc.
Qed.

Lemma drain_spec remaining hooked :
  drain remaining hooked = hooked ++ map rstrip remaining.
Proof.
  revert hooked. induction remaining as [|line rest IH]; intros hooked.
  - cbn. by rewrite app_nil_r.
  - cbn [drain map]. rewrite IH. by rewrite <- app_assoc.
Qed.

(** X1.  The reader calls the hook once for every line read that is not
    empty, first for those read while polling and then for those left at
    termination, each time in reading order and with the line stripped on
    the right; what the hook received before stays in front. *)
Theorem reader_hooks_lines_in_order reads remaining hooked :
  _reader reads remaining hooked
  = hooked
    ++ map rstrip (filter (fun line => line <> []) reads ++ remaining).
Proof.
  unfold _reader. rewrite drain_spec, poll_spec, map_app.
  by rewrite <- app_assoc.
Qed.

(** X2.  Whatever the reader hands to the hook is the line without its
    trailing white space: the rest of the line is white space only, and
    the message itself does not end in white space (so not in a newline
    either). *)
Theorem reader_strips_trailing_space (line : pystr) :
  (exists ws,
      line = rstrip line ++ ws /\ Forall (fun c => isspace c = true) ws)
  /\ (forall c, last (rstrip line) = Some c -> isspace c = false)
  /\ rstrip (rstrip line) = rstrip line.
Proof.
  destruct (rstrip_spec line) as [Hsplit Hlast].
  split; [done|]. split; [done|].
  destruct (rstrip_spec (rstrip line)) as [(ws & Hs & Hws) _].
  destruct ws as [|w ws] using rev_ind; [by rewrite app_nil_r in Hs|].
  clear IHws. rewrite Forall_app, Forall_singleton in Hws.
  destruct Hws as [_ Hw].
  assert (last (rstrip line) = Some w) as Hl.
  { rewrite Hs, app_assoc. apply last_snoc. }
  apply Hlast in Hl. congruence.
Qed.
End LogPipeFacts.


(** ** Serialization *)

Section SerializationFacts.
Import Serialization.
Context `{Backends}.

Lemma prepare_backend_spec serialization_method :
  prepare_backend serialization_method =
  match import_module serialization_method with
  | inl e =>
      Failed (SerializationError
                (lit "Error while " ++ preparing serialization_method)
                (Foreign e))
  | inr backend =>
      if has_loads backend && has_dumps backend then Returned backend
      else
        Failed (SerializationError
                  (lit "Error while " ++ preparing serialization_method)
                  (MissingMethods
                     (lit "The given serialization backend ("
                      ++ module_name backend
                      ++ lit ") does not have one of the required methods (loads/dumps).")))
  end.
Proof.
  unfold prepare_backend, _step, as_serialization_method.
  destruct (import_module serialization_method) as [e|backend]; [done|].
  by destruct (has_loads backend), (has_dumps backend).
Qed.

(** X3.  What [serialize_object] returned loads back to the object with
    the same method, provided the backend's [loads] reads that data back
    as the object. *)
Theorem load_serialize_round_trip serialization_method object data :
  serialize_object serialization_method object = Returned data ->
  (forall backend,
      import_module serialization_method = inr backend ->
      loads backend data = inr object) ->
  load_serialized_object serialization_method data false = Returned object.
Proof.
  unfold serialize_object, load_serialized_object.
  rewrite prepare_backend_spec.
  destruct (import_module serialization_method) as [e|backend]; [done|].
  destruct (has_loads backend && has_dumps backend); [|done].
  intros _ Hloads. by rewrite (Hloads backend eq_refl).
Qed.

(** X4.  Neither function lets an exception of [importlib] or of the
    backend through as it is: every failure of [serialize_object], and
    of [load_serialized_object] without [was_it_raised], is a
    [SerializationError] whose message names the step that failed. *)
Theorem failures_are_serialization_errors serialization_method object raw :
  match serialize_object serialization_method object with
  | Returned _ => True
  | Failed (SerializationError msg _) =>
      msg = lit "Error while " ++ preparing serialization_method
      \/ msg = lit "Error while serializing the given object"
  | Failed _ => False
  end
  /\ match load_serialized_object serialization_method raw false with
     | Returned _ => True
     | Failed (SerializationError msg _) =>
         msg = lit "Error while " ++ preparing serialization_method
         \/ msg = lit "Error while deserializing the given object"
     | Failed _ => False
     end.
Proof.
  unfold serialize_object, load_serialized_object.
  rewrite prepare_backend_spec.
  destruct (import_module serialization_method) as [e|backend];
    [split; by left|].
  destruct (has_loads backend && has_dumps backend); [|split; by left].
  split.
  - destruct (dumps backend object); cbn; [by right|done].
  - destruct (loads backend raw); cbn; [by right|done].
Qed.

(** X5.  With [was_it_raised] set, [load_serialized_object] fails where
    it fails without the flag, and where it would have returned an
    object it raises that object instead (or fails because the object is
    no exception): it never returns. *)
Theorem load_raises_what_it_loaded serialization_method raw :
  load_serialized_object serialization_method raw true =
  match load_serialized_object serialization_method raw false with
  | Failed f => Failed f
  | Returned result =>
      match as_exception result with
      | Some e => Failed (Reraised e)
      | None => Failed NotAnException
      end
  end.
Proof.
  unfold load_serialized_object.
  destruct (prepare_backend serialization_method) as [backend|f]; [|done].
  by destruct (_step _ (foreign (loads backend raw))).
Qed.

(** X6.  A backend that lacks [loads] or [dumps] is turned down while
    the backend is prepared, by both functions: a module with [dumps]
    only cannot serialize either. *)
Theorem backend_needs_loads_and_dumps serialization_method backend :
  import_module serialization_method = inr backend ->
  has_loads backend && has_dumps backend = false ->
  exists msg,
    (forall object,
        serialize_object serialization_method object
        = Failed (SerializationError
                    (lit "Error while " ++ preparing serialization_method)
                    (MissingMethods msg)))
    /\ (forall raw was_it_raised,
          load_serialized_object serialization_method raw was_it_raised
          = Failed (SerializationError
                      (lit "Error while " ++ preparing serialization_method)
                      (MissingMethods msg))).
Proof.
  intros Himport Hmissing. eexists. split.
  - intros object. unfold serialize_object.
    by rewrite prepare_backend_spec, Himport, Hmissing.
  - intros raw was_it_raised. unfold load_serialized_object.
    by rewrite prepare_backend_spec, Himport, Hmissing.
Qed.
End SerializationFacts.

Lemma load_serialize_round_trip_witness :
  @Serialization.load_serialized_object Demo.backends (lit "pickle")
    [xe2; x82; xac] false
  = Serialization.Returned [0x20AC%N].
Proof.
  apply (@load_serialize_round_trip Demo.backends (lit "pickle")
           [0x20AC%N] [xe2; x82; xac]).
  - reflexivity.
  - intros backend _. reflexivity.
Defined.

Lemma backend_needs_loads_and_dumps_witness :
  exists msg,
    (forall object,
        @Serialization.serialize_object Demo.backends (lit "writer") object
        = Serialization.Failed
            (Serialization.SerializationError
               (lit "Error while " ++ Serialization.preparing (lit "writer"))
               (Serialization.MissingMethods msg)))
    /\ (forall raw was_it_raised,
          @Serialization.load_serialized_object Demo.backends (lit "writer")
            raw was_it_raised
          = Serialization.Failed
              (Serialization.SerializationError
                 (lit "Error while "
                  ++ Serialization.preparing (lit "writer"))
                 (Serialization.MissingMethods msg))).
Proof.
  apply (@backend_needs_loads_and_dumps Demo.backends (lit "writer") false);
    reflexivity.
Defined.

(** ** The registry *)

Section RegistryFacts.
Import Registry.
Context `{Environments}.

Lemma comprehension_lookup (selected : list EntryPoint)
    (built : gmap pystr EnvClass) (kind : pystr) :
  comprehension selected built !! kind =
  match last (filter (fun entry_point => name entry_point = kind) selected)
  with
  | Some entry_point => Some (load entry_point)
  | None => built !! kind
  end.
Proof.
  revert built. induction selected as [|ep rest IH]; intros built; [done|].
  cbn [comprehension]. rewrite IH.
  destruct (decide (name ep = kind)) as [Heq|Hne].
  - rewrite filter_cons_True by done. rewrite last_cons.
    destruct (last (filter _ rest)); [done|].
    by rewrite <- Heq, lookup_insert_eq.
  - rewrite filter_cons_False by done.
    destruct (last (filter _ rest)); [done|].
    by rewrite lookup_insert_ne.
Qed.

(** X7.  After [_reload_registry] a kind resolves to what the last entry
    point of that name in the group [isolate.backends] loads; a kind no
    such entry point names resolves as it did before. *)
Theorem reload_registry_lookup (entry_points : list EntryPoint)
    (registry : gmap pystr EnvClass) (kind : pystr) :
  _reload_registry entry_points registry !! kind =
  match last (filter (fun entry_point => name entry_point = kind)
                (select _ENTRY_POINT entry_points))
  with
  | Some entry_point => Some (load entry_point)
  | None => registry !! kind
  end.
Proof.
  unfold _reload_registry. rewrite lookup_union, comprehension_lookup.
  destruct (last _); [|by rewrite lookup_empty, (left_id None _)].
  by destruct (registry !! kind).
Qed.

Lemma elem_of_select (wanted : pystr) (entry_points : list EntryPoint)
    (entry_point : EntryPoint) :
  entry_point ∈ select wanted entry_points
  <-> entry_point ∈ entry_points /\ group entry_point = wanted.
Proof.
  unfold select. rewrite list_elem_of_In, filter_In, <- list_elem_of_In.
  by rewrite bool_decide_eq_true.
Qed.

(** X8.  After [_reload_registry], [prepare_environment] raises the
    unknown-environment error for exactly the kinds that were not
    registered before and that no entry point of the group
    [isolate.backends] names; entry points of other groups register
    nothing. *)
Theorem prepare_environment_unknown_iff (entry_points : list EntryPoint)
    (registry : gmap pystr EnvClass) (kind : pystr)
    (config : option (gmap pystr ConfigValue)) :
  prepare_environment (_reload_registry entry_points registry) kind config
  = inl (UnknownEnvironment kind)
  <-> registry !! kind = None
      /\ forall entry_point,
           entry_point ∈ entry_points ->
           group entry_point = _ENTRY_POINT ->
           name entry_point <> kind.
Proof.
  unfold prepare_environment. rewrite reload_registry_lookup.
  destruct (last _) as [ep|] eqn:Hlast.
  - split; [done|]. intros [_ Hnone]. exfalso.
    apply last_Some_elem_of in Hlast.
    apply list_elem_of_filter in Hlast as [Hname Hsel].
    apply elem_of_select in Hsel as [Hin Hgroup].
    by apply (Hnone ep).
  - apply last_None in Hlast.
    destruct (registry !! kind) as [cls|] eqn:Hreg.
    + split; [done|]. by intros [[=] _].
    + split; [|done]. intros _. split; [done|].
      intros ep Hin Hgroup Hname.
      assert (ep ∈ filter (fun entry_point => name entry_point = kind)
                     (select _ENTRY_POINT entry_points)) as Hep.
      { apply list_elem_of_filter. split; [done|]. by apply elem_of_select. }
      rewrite Hlast in Hep. by apply not_elem_of_nil in Hep.
Qed.
End RegistryFacts.

(** ** The remote connection over several calls *)

Section RemoteLifecycle.
Import Remote RemoteTeardown.
Context `{Server}.

(** The loop changes nothing of the connection but the sink. *)
Lemma consume_frame stream return_value self :
  host (consume stream return_value self).2 = host self
  /\ definition (consume stream return_value self).2 = definition self
  /\ _channel (consume stream return_value self).2 = _channel self
  /\ serialization_method (consume stream return_value self).2
     = serialization_method self
  /\ opened (consume stream return_value self).2 = opened self.
Proof.
  revert return_value self.
  induction stream as [|m rest IH]; intros return_value self; [done|].
  cbn [consume].
  assert (Hlogs : forall rv,
    host (consume rest rv (forward_logs (logs m) self)).2 = host self
    /\ definition (consume rest rv (forward_logs (logs m) self)).2
       = definition self
    /\ _channel (consume rest rv (forward_logs (logs m) self)).2
       = _channel self
    /\ serialization_method (consume rest rv (forward_logs (logs m) self)).2
       = serialization_method self
    /\ opened (consume rest rv (forward_logs (logs m) self)).2
       = opened self).
  { intros rv.
    destruct (IH rv (forward_logs (logs m) self)) as (-> & -> & -> & -> & ->).
    by rewrite forward_logs_spec. }
  destruct (is_complete m); [|apply Hlogs].
  destruct (object_from_grpc (result_ m)); [apply Hlogs|].
  by rewrite forward_logs_spec.
Qed.

Lemma run_frame executable self :
  host (run executable self).2 = host self
  /\ definition (run executable self).2 = definition self
  /\ _channel (run executable self).2 = Some (ensure_channel self).1
  /\ serialization_method (run executable self).2
     = serialization_method self
  /\ opened (run executable self).2
     = opened self
       ++ match _channel self with
          | None => [insecure_channel (host self)]
          | Some _ => []
          end.
Proof.
  rewrite run_unfold.
  destruct (consume_frame (response_stream executable self) []
              (ensure_channel self).2) as (Hh & Hd & Hc & Hs & Ho).
  rewrite ensure_channel_spec in Hh, Hd, Hc, Hs, Ho. cbn in Hh, Hd, Hc, Hs, Ho.
  rewrite ensure_channel_spec.
  destruct (consume _ _ _) as [[[|v1 [|v2 values]]|e] self']; by cbn in *.
Qed.

Lemma run_ok_sink executable self value :
  (run executable self).1 = Ok value ->
  sink (run executable self).2
  = sink self
    ++ map log_from_grpc
         (concat (map logs (response_stream executable self))).
Proof.
  rewrite run_unfold.
  destruct (List.find raises_on (response_stream executable self))
    as [m|] eqn:Hfind.
  - destruct (find_raises_on _ _ Hfind)
      as (pre & post & e & Hs & Hpre & Hm & He).
    by rewrite Hs, (consume_raises _ _ _ _ _ _ Hpre Hm He).
  - rewrite (consume_all _ _ _ Hfind), ensure_channel_spec. cbn [app].
    by destruct (collected (response_stream executable self))
      as [|v1 [|v2 values]].
Qed.

(** X9.  The first [run] opens a channel only if the connection has
    none, and a second [run] on the connection it left opens none: it
    talks over the channel the first one used.  When both return, the
    sink holds the logs of the first call followed by those of the
    second. *)
Theorem run_twice_reuses_channel first second self :
  let after := (run first self).2 in
  _channel after = Some (ensure_channel self).1
  /\ opened after
     = opened self
       ++ match _channel self with
          | None => [insecure_channel (host self)]
          | Some _ => []
          end
  /\ opened (run second after).2 = opened after
  /\ response_stream second after
     = stub_Run (ensure_channel self).1 (request_for second self)
  /\ forall v1 v2,
       (run first self).1 = Ok v1 ->
       (run second after).1 = Ok v2 ->
       sink (run second after).2
       = sink self
         ++ map log_from_grpc
              (concat (map logs (response_stream first self)))
         ++ map log_from_grpc
              (concat (map logs (response_stream second after))).
Proof.
  cbv zeta.
  destruct (run_frame first self) as (Hh & Hd & Hc & Hs & Ho).
  destruct (run_frame second (run first self).2) as (_ & _ & _ & _ & Ho2).
  rewrite Hc in Ho2. rewrite app_nil_r in Ho2.
  split; [done|]. split; [done|]. split; [done|]. split.
  - unfold response_stream, ensure_channel, request_for.
    by rewrite Hc, Hs, Hd.
  - intros v1 v2 H1 H2.
    by rewrite (run_ok_sink _ _ _ H2), (run_ok_sink _ _ _ H1), <- app_assoc.
Qed.


(** X11.  [__exit__] leaves the connection without a channel and with
    its sink as it was, a second [__exit__] changes nothing, and the
    next [run] talks over a fresh channel to the same host. *)
Theorem exit_releases_channel executable self :
  _channel (__exit__ self) = None
  /\ sink (__exit__ self) = sink self
  /\ __exit__ (__exit__ self) = __exit__ self
  /\ response_stream executable (__exit__ self)
     = stub_Run (insecure_channel (host self)) (request_for executable self)
  /\ _channel (run executable (__exit__ self)).2
     = Some (insecure_channel (host self)).
Proof.
  destruct (run_frame executable (__exit__ self)) as (_ & _ & -> & _).
  unfold __exit__, _release_channel, response_stream, ensure_channel.
  by destruct self as [h d [ch|] sm sk op].
Qed.
End RemoteLifecycle.

Lemma run_twice_reuses_channel_witness :
  Remote.opened
    (@Remote.run (Example.server Example.one_result) 8%N
       (@Remote.run (Example.server Example.one_result) 7%N
          (Example.connection Example.one_result)).2).2
  = Remote.opened
      (@Remote.run (Example.server Example.one_result) 7%N
         (Example.connection Example.one_result)).2.
Proof.
  apply (@run_twice_reuses_channel (Example.server Example.one_result)
           7%N 8%N (Example.connection Example.one_result)).
Defined.


(** ** Cleaning up after a failure *)

Lemma shutil_rmtree_frame (path : Path) (w : World) :
  (forall q : Path,
      ¬ path `prefix_of` q ->
      fs (shutil_rmtree path w).2 !! q = fs w !! q)
  /\ spawned (shutil_rmtree path w).2 = spawned w
  /\ logged (shutil_rmtree path w).2 = logged w
  /\ conda_cache (shutil_rmtree path w).2 = conda_cache w.
Proof.
  unfold shutil_rmtree. destruct (fs w !! path) as [[|x]|]; cbn; try done.
  split; [|done]. intros q Hq. rewrite without_tree_lookup. by case_decide.
Qed.

(** X12.  [rmdir_on_fail] hands a successful body through untouched, and
    after a failing one it changes nothing but the tree of [path]: every
    other file, the processes spawned and the log are as the body left
    them. *)
Theorem rmdir_on_fail_touches_only_the_tree {A} (path : Path) (body : M A)
    (w : World) :
  (forall a, (body w).1 = Ok a -> rmdir_on_fail path body w = body w)
  /\ (forall q : Path,
        ¬ path `prefix_of` q ->
        fs (rmdir_on_fail path body w).2 !! q = fs (body w).2 !! q)
  /\ spawned (rmdir_on_fail path body w).2 = spawned (body w).2
  /\ logged (rmdir_on_fail path body w).2 = logged (body w).2.
Proof.
  unfold rmdir_on_fail, try_except, bind, ret, raise.
  destruct (body w) as [[a|e] w1]; cbn; [by split; [intros ? [= <-]|]|].
  split; [done|].
  destruct (is_exception e); [|done]. cbn.
  destruct (path_exists (fs w1) path); [|done].
  destruct (shutil_rmtree_frame path w1) as (Hfs & Hsp & Hlg & _).
  by destruct (shutil_rmtree path w1) as [[[]|e'] w2].
Qed.

(** ** Looking for conda *)

Section CondaLookup.
Context `{Platform}.

(** X13.  Once [_get_conda_executable] has returned a path, the path is
    in the cache cell, and every later call in a world with that cell
    returns it without another look at the file system. *)
Theorem conda_executable_is_cached w conda w1 :
  _get_conda_executable w = (Ok conda, w1) ->
  conda_cache w1 = Some conda
  /\ forall w2,
       conda_cache w2 = Some conda ->
       _get_conda_executable w2 = (Ok conda, w2).
Proof.
  rewrite get_conda_executable_spec.
  destruct (conda_found w) as [p|]; [|done]. intros [= -> <-].
  split; [done|]. intros w2 Hcache.
  unfold _get_conda_executable, cache_static. by rewrite Hcache.
Qed.

(** X14.  With an empty cache cell the executable is looked for under
    [ISOLATE_CONDA_HOME] first and on the default search path only when
    that fails; a hit is cached, and when both fail
    [FileNotFoundError] is raised and the cell stays empty, so that the
    next call looks again. *)
Theorem conda_lookup_order w :
  conda_cache w = None ->
  _get_conda_executable w =
  match shutil_which (fs w) _CONDA_COMMAND _ISOLATE_CONDA_HOME with
  | Some conda => (Ok conda, set_conda_cache (Some conda) w)
  | None =>
      match shutil_which (fs w) _CONDA_COMMAND None with
      | Some conda => (Ok conda, set_conda_cache (Some conda) w)
      | None =>
          (Raise (FileNotFoundError "Could not find conda executable."), w)
      end
  end.
Proof.
  intros Hcache. rewrite get_conda_executable_spec.
  unfold conda_found. rewrite Hcache. cbn [conda_lookup].
  destruct (shutil_which (fs w) _CONDA_COMMAND _ISOLATE_CONDA_HOME);
    [done|].
  by destruct (shutil_which (fs w) _CONDA_COMMAND None).
Qed.
End CondaLookup.

Lemma conda_executable_is_cached_witness :
  conda_cache
    (@_get_conda_executable (Example.platform 0) Example.fresh).2
  = Some Example.conda_bin
  /\ forall w2,
       conda_cache w2 = Some Example.conda_bin ->
       @_get_conda_executable (Example.platform 0) w2
       = (Ok Example.conda_bin, w2).
Proof.
  apply (@conda_executable_is_cached (Example.platform 0) Example.fresh).
  apply outcome_eq. vm_compute. reflexivity.
Defined.

Lemma conda_lookup_order_witness :
  @_get_conda_executable (Example.platform 0) Example.bare
  = (Raise (FileNotFoundError "Could not find conda executable."),
     Example.bare).
Proof.
  apply (@conda_lookup_order (Example.platform 0) Example.bare).
  reflexivity.
Defined.

(** ** More on [create] *)

Section CreateMore.
Context `{Platform}.

Lemma create_ok_slot self exist_ok w path w1 :
  create self exist_ok w = (Ok path, w1) -> cache_slot self = Ok path.
Proof.
  intros Hcreate.
  destruct (cache_slot self) as [slot|e] eqn:Hslot;
    [|by unfold create, bind, lift in Hcreate; rewrite Hslot in Hcreate].
  rewrite (create_spec _ _ _ _ Hslot) in Hcreate.
  repeat match type of Hcreate with
         | context [interrupted ?c ?f] =>
             destruct (interrupted c f)
         | (if ?b then _ else _) = _ => destruct b
         | match ?x with _ => _ end = _ => destruct x
         end; by simplify_eq.
Qed.

Lemma create_fresh_raises self path exist_ok w e w1 :
  cache_slot self = Ok path ->
  path_exists (fs w) path = false ->
  create self exist_ok w = (Raise e, w1) ->
  forall p, e <> FileExistsError p.
Proof.
  intros Hslot Hfresh Hcreate p ->.
  rewrite (create_spec _ _ _ _ Hslot), Hfresh in Hcreate.
  destruct (provision self path w) as [[[]|e1] w0] eqn:Hprov; [done|].
  apply provision_raises in Hprov.
  destruct (is_exception e1 && path_exists (fs w0) path).
  - rewrite shutil_rmtree_spec in Hcreate.
    destruct (fs w0 !! path) as [[|x]|]; simplify_eq;
      destruct Hprov as [[? ?]|[[? [? ?]]|?]]; done.
  - simplify_eq. destruct Hprov as [[? ?]|[[? [? ?]]|?]]; done.
Qed.

(** X15.  [create] hands at most one command line to [subprocess], and
    only when the slot is not on disk and a conda executable is found:
    the executable, [create --yes --prefix], the slot and the packages.
    This holds whether or not [create] then succeeds. *)
Theorem create_spawns_one_command self path exist_ok w :
  cache_slot self = Ok path ->
  spawned (create self exist_ok w).2 =
  spawned w
  ++ (if path_exists (fs w) path then []
      else
        match conda_found w with
        | Some conda => [conda_create_command conda path self]
        | None => []
        end).
Proof.
  intros Hslot. rewrite (create_spec _ _ _ _ Hslot).
  destruct (path_exists (fs w) path);
    [destruct exist_ok; cbn; by rewrite app_nil_r|].
  rewrite provision_spec.
  assert (Hprep : forall conda,
             spawned (prepared self path conda w) = spawned w).
  { intros conda. unfold prepared. by destruct (packages self). }
  destruct (conda_found w) as [conda|]; cbv zeta.
  - set (cmd := conda_create_command conda path self).
    set (after := set_fs _ (add_spawned cmd (prepared self path conda w))).
    assert (spawned after = spawned w ++ [cmd]) as Hafter
      by (unfold after; cbn [spawned set_fs add_spawned];
          by rewrite Hprep).
    destruct (shutil_rmtree_frame path after) as (_ & Hsp & _).
    destruct (_ =? 0)%Z; [done|].
    destruct (interrupted _ _); [done|]. cbn [is_exception andb].
    destruct (path_exists (fs after) path); [|done].
    destruct (shutil_rmtree path after) as [[[]|e'] w2];
      cbn [snd] in *; by rewrite Hsp.
  - change (fs (announced path w)) with (fs w). cbn [is_exception andb].
    destruct (path_exists (fs w) path); [|by rewrite app_nil_r].
    destruct (shutil_rmtree_frame path (announced path w)) as (_ & Hsp & _).
    destruct (shutil_rmtree path (announced path w)) as [[[]|e'] w2];
      cbn [snd] in *; by rewrite Hsp, app_nil_r.
Qed.

(** X16.  Without a conda executable and without the slot on disk,
    [create] raises [FileNotFoundError] before anything is run: the file
    system is untouched and the only trace is the first log entry. *)
Theorem create_without_conda_executable self path exist_ok w :
  cache_slot self = Ok path ->
  path_exists (fs w) path = false ->
  conda_found w = None ->
  create self exist_ok w
  = (Raise (FileNotFoundError "Could not find conda executable."),
     announced path w).
Proof.
  intros Hslot Hfresh Hnone.
  rewrite (create_spec _ _ _ _ Hslot), Hfresh, provision_spec, Hnone.
  change (fs (announced path w)) with (fs w). cbn [is_exception andb].
  by rewrite Hfresh.
Qed.

(** X17.  After a successful [create] that left the slot on disk, asking
    again with [exist_ok] returns the same path and changes nothing, and
    asking again without it raises [FileExistsError]. *)
Theorem create_again self exist_ok w path w1 :
  create self exist_ok w = (Ok path, w1) ->
  path_exists (fs w1) path = true ->
  create self true w1 = (Ok path, w1)
  /\ create self false w1 = (Raise (FileExistsError path), w1).
Proof.
  intros Hslot%create_ok_slot Hpresent.
  by rewrite !(create_spec _ _ _ _ Hslot), Hpresent.
Qed.

(** X18.  A [create] that failed with an [Exception] does not stand in
    the way of the next one: if the slot was not on disk before and the
    package manager did not leave a regular file in its place, the slot
    is not on disk afterwards, and the next [create] does not raise
    [FileExistsError].  An interrupt is no [Exception]: it is let
    through with what was built left on disk. *)
Theorem create_can_be_retried self path exist_ok w e w1 :
  cache_slot self = Ok path ->
  path_exists (fs w) path = false ->
  create self exist_ok w = (Raise e, w1) ->
  is_exception e = true ->
  (forall x, fs (provision self path w).2 !! path <> Some (File x)) ->
  path_exists (fs w1) path = false
  /\ forall exist_ok' e' w2,
       create self exist_ok' w1 = (Raise e', w2) ->
       forall p, e' <> FileExistsError p.
Proof.
  intros Hslot Hfresh Hcreate Hexc Hnofile.
  assert (path_exists (fs w1) path = false) as Hgone.
  { rewrite (create_spec _ _ _ _ Hslot), Hfresh in Hcreate.
    destruct (provision self path w) as [[[]|e1] w0]; [done|].
    cbn in Hnofile.
    destruct (path_exists (fs w0) path) eqn:Hpresent;
      [|by rewrite andb_false_r in Hcreate; simplify_eq].
    rewrite andb_true_r in Hcreate.
    destruct (is_exception e1) eqn:He1;
      [|by simplify_eq; rewrite He1 in Hexc].
    rewrite shutil_rmtree_spec in Hcreate.
    destruct (fs w0 !! path) as [[|x]|] eqn:Hnode.
    - simplify_eq. apply path_exists_false. cbn.
      rewrite without_tree_lookup. by case_decide.
    - by destruct (Hnofile x).
    - apply path_exists_true in Hpresent. rewrite Hnode in Hpresent.
      by destruct Hpresent. }
  split; [done|]. intros exist_ok' e' w2 Hagain.
  by apply (create_fresh_raises _ _ _ _ _ _ Hslot Hgone Hagain).
Qed.
End CreateMore.

Lemma create_spawns_one_command_witness :
  spawned
    (@create (Example.platform 1) Example.numpy false Example.fresh).2
  = [conda_create_command Example.conda_bin Example.numpy_slot
       Example.numpy].
Proof.
  apply (@create_spawns_one_command (Example.platform 1) Example.numpy
           Example.numpy_slot false Example.fresh).
  vm_compute. reflexivity.
Defined.

Lemma create_without_conda_executable_witness :
  @create (Example.platform 0) Example.numpy false Example.bare
  = (Raise (FileNotFoundError "Could not find conda executable."),
     announced Example.numpy_slot Example.bare).
Proof.
  apply (@create_without_conda_executable (Example.platform 0)
           Example.numpy Example.numpy_slot false Example.bare);
    vm_compute; reflexivity.
Defined.

Lemma create_again_witness :
  @create (Example.platform 0) Example.numpy true Example.with_numpy
  = (Ok Example.numpy_slot, Example.with_numpy)
  /\ @create (Example.platform 0) Example.numpy false Example.with_numpy
     = (Raise (FileExistsError Example.numpy_slot), Example.with_numpy).
Proof.
  apply (@create_again (Example.platform 0) Example.numpy false
           Example.fresh Example.numpy_slot Example.with_numpy).
  - apply outcome_eq. vm_compute. reflexivity.
  - vm_compute. reflexivity.
Defined.

Lemma create_can_be_retried_witness :
  path_exists
    (fs (@create (Example.platform 1) Example.numpy false Example.fresh).2)
    Example.numpy_slot = false
  /\ forall exist_ok' e' w2,
       @create (Example.platform 1) Example.numpy exist_ok'
         (@create (Example.platform 1) Example.numpy false Example.fresh).2
       = (Raise e', w2) ->
       forall p, e' <> FileExistsError p.
Proof.
  apply (@create_can_be_retried (Example.platform 1) Example.numpy
           Example.numpy_slot false Example.fresh
           (CalledProcessError 1
              (conda_create_command Example.conda_bin Example.numpy_slot
                 Example.numpy))).
  - vm_compute. reflexivity.
  - vm_compute. reflexivity.
  - apply outcome_eq. vm_compute. reflexivity.
  - reflexivity.
  - intros x. vm_compute. discriminate.
Defined.

(** ** The fingerprint and the text of the packages *)

Section KeyFacts.
Import Codec CodecFacts.
Context `{Platform}.

Lemma str_join_encodable (sep : pystr) (l : list pystr) :
  Forall (fun c => encodable c = true) sep ->
  Forall (fun c => encodable c = true) (str_join sep l)
  <-> Forall (Forall (fun c => encodable c = true)) l.
Proof.
  intros Hsep. induction l as [|x rest IH]; [by split; constructor|].
  destruct rest as [|y rest].
  - cbn. by rewrite Forall_singleton.
  - change (str_join sep (x :: y :: rest))
      with (x ++ sep ++ str_join sep (y :: rest)).
    rewrite !Forall_app, IH, (Forall_cons _ x). tauto.
Qed.

Lemma Exists_not_Forall {A} (P Q : A -> Prop) (l : list A) :
  (forall x, Q x <-> ¬ P x) ->
  (forall x, P x \/ ¬ P x) ->
  Exists Q l <-> ¬ Forall P l.
Proof.
  intros HQ Hdec. induction l as [|x l IH].
  - rewrite Exists_nil. split; [done|]. intros Hn. apply Hn. constructor.
  - rewrite Exists_cons, Forall_cons, IH, HQ.
    destruct (Hdec x); tauto.
Qed.

(** X19.  [key] raises [UnicodeEncodeError] exactly when some package
    name holds a code point that UTF-8 cannot encode (a lone surrogate);
    [create] then raises the same error with the world untouched. *)
Theorem key_fails_on_lone_surrogates self :
  (key self = Raise UnicodeEncodeError
   <-> Exists (Exists (fun c => encodable c = false)) (packages self))
  /\ forall e,
       key self = Raise e ->
       forall exist_ok w, create self exist_ok w = (Raise e, w).
Proof.
  split.
  - rewrite (Exists_not_Forall (Forall (fun c => encodable c = true))).
    + rewrite <- (str_join_encodable (lit " ")) by (by repeat constructor).
      rewrite <- utf8_encode_is_Some. unfold key.
      destruct (utf8_encode (str_join (lit " ") (packages self))) as [raw|].
      * split; [done|]. intros Hn. destruct Hn. eauto.
      * split; [|done]. by intros _ [? [=]].
    + intros pkg. apply Exists_not_Forall.
      * intros c. by destruct (encodable c).
      * intros c. destruct (encodable c); [by left|by right].
    + intros pkg.
      destruct (decide (Forall (fun c => encodable c = true) pkg));
        [by left|by right].
  - intros e He exist_ok w. unfold create, bind, lift, cache_slot.
    by rewrite He.
Qed.
End KeyFacts.

(** ** More on the service address *)

Section AddressMore.
Import Codec CodecFacts.

Lemma table_b2a_in_alphabet i :
  (i < 64)%N -> table_b2a_base64 i ∈ alphabet.
Proof.
  intros Hi. unfold table_b2a_base64. apply list_elem_of_In, nth_In.
  change (length alphabet) with 64%nat. lia.
Qed.

Lemma table_b2a_in_chars i :
  (i < 64)%N -> table_b2a_base64 i ∈ BASE64_PAD :: alphabet.
Proof. intros Hi. apply elem_of_cons. right. by apply table_b2a_in_alphabet. Qed.

Lemma b2a_base64_chars bs :
  Forall (fun x => x ∈ BASE64_PAD :: alphabet) (b2a_base64 bs)
  /\ (exists k, length (b2a_base64 bs) = 4 * k)%nat.
Proof.
  assert (Hpad : BASE64_PAD ∈ BASE64_PAD :: alphabet)
    by (apply elem_of_cons; by left).
  induction bs as [|a|a b|a b c rest [IH [k Hk]]] using list_ind3;
    cbn [b2a_base64]; cbv zeta.
  - split; [constructor|by exists 0%nat].
  - pose proof (to_N_lt a).
    split; [|by exists 1%nat].
    repeat (apply Forall_cons; split); try done;
      apply table_b2a_in_chars;
      first [by apply sextet0_lt | by apply sextet1_tail_lt].
  - pose proof (to_N_lt a). pose proof (to_N_lt b).
    split; [|by exists 1%nat].
    repeat (apply Forall_cons; split); try done;
      apply table_b2a_in_chars;
      first [by apply sextet0_lt | by apply sextet1_lt
            | by apply sextet2_tail_lt].
  - pose proof (to_N_lt a). pose proof (to_N_lt b). pose proof (to_N_lt c).
    split; [|exists (S k); cbn [length]; lia].
    repeat (apply Forall_cons; split); try done;
      apply table_b2a_in_chars;
      first [by apply sextet0_lt | by apply sextet1_lt
            | by apply sextet2_lt | by apply sextet3_lt].
Qed.

Lemma encode_service_address_spec a encoded :
  encode_service_address a = Ok encoded ->
  exists s raw,
    address_text a = Ok s
    /\ utf8_encode s = Some raw
    /\ encoded = map Byte.to_N (b2a_base64 raw).
Proof.
  intros Henc.
  assert (Htext : forall s, encode_service_address (PyStr s) = Ok encoded ->
            exists raw, forallb encodable s = true
              /\ utf8_encode s = Some raw
              /\ encoded = map Byte.to_N (b2a_base64 raw)).
  { intros s Hs. destruct (utf8_encode s) as [raw|] eqn:Hraw.
    - rewrite (encode_text _ _ Hraw) in Hs. injection Hs as <-.
      exists raw. split; [|done].
      apply forallb_forall. intros c Hc.
      assert (is_Some (utf8_encode s)) as Hsome by eauto.
      apply utf8_encode_is_Some in Hsome. rewrite Forall_forall in Hsome.
      by apply Hsome, list_elem_of_In.
    - unfold encode_service_address in Hs. cbn in Hs.
      by rewrite Hraw in Hs. }
  destruct a as [b|s]; cbn [address_text].
  - rewrite encode_bytes in Henc.
    destruct (utf8_decode b) as [s|]; [|done].
    destruct (Htext s Henc) as (raw & _ & Hraw & ->). by exists s, raw.
  - destruct (Htext s Henc) as (raw & Hall & Hraw & ->).
    exists s, raw. by rewrite Hall.
Qed.

(** X20.  An encoded address consists of characters of the base64
    alphabet and of [=] only, and its length is a multiple of four. *)
Theorem encoded_address_is_base64 a encoded :
  encode_service_address a = Ok encoded ->
  Forall (fun c => is_base64_char c = true) encoded
  /\ exists k, (length encoded = 4 * k)%nat.
Proof.
  intros (s & raw & _ & _ & ->)%encode_service_address_spec.
  destruct (b2a_base64_chars raw) as [Hchars Hlen].
  split; [|by rewrite length_map].
  apply Forall_map. eapply Forall_impl; [exact Hchars|].
  intros x Hx. cbn beta. apply bool_decide_eq_true.
  by apply list_elem_of_fmap_2.
Qed.

(** X21.  Addresses that encode to the same string stand for the same
    text: the encoding tells apart any two texts, and a byte string from
    a text only when they hold different characters. *)
Theorem encode_service_address_injective a b encoded :
  encode_service_address a = Ok encoded ->
  encode_service_address b = Ok encoded ->
  address_text a = address_text b.
Proof.
  intros (s & raw & -> & Hraw & ->)%encode_service_address_spec
         (t & raw' & -> & Hraw' & Heq)%encode_service_address_spec.
  pose proof (decode_encoded _ _ (utf8_decode_encode _ _ Hraw)) as Hs.
  pose proof (decode_encoded _ _ (utf8_decode_encode _ _ Hraw')) as Ht.
  rewrite Heq in Hs. congruence.
Qed.

Lemma ascii_encode_None s :
  Exists (fun c => (0x80 <= c)%N) s -> ascii_encode s = None.
Proof.
  induction s as [|c s IH]; intros Hex; [by apply Exists_nil in Hex|].
  cbn [ascii_encode]. destruct (N.ltb_spec c 0x80) as [Hlt|Hge]; [|done].
  apply Exists_cons in Hex as [Hc|Hs]; [lia|]. by rewrite IH.
Qed.

(** X22.  [decode_service_address] raises [ValueError] on every string
    that holds a character outside ASCII, wherever it stands. *)
Theorem decode_service_address_rejects_non_ascii s :
  Exists (fun c => (0x80 <= c)%N) s ->
  decode_service_address s
  = Raise (ValueError "string argument should contain only ASCII characters").
Proof.
  intros Hex. unfold decode_service_address, b64decode.
  by rewrite (ascii_encode_None _ Hex).
Qed.
End AddressMore.

Lemma encoded_address_is_base64_witness :
  Forall (fun c => is_base64_char c = true) (lit "aGVsbG8=")
  /\ exists k, (length (lit "aGVsbG8=") = 4 * k)%nat.
Proof.
  apply (encoded_address_is_base64 (PyStr (lit "hello"))).
  reflexivity.
Defined.

Lemma encode_service_address_injective_witness :
  address_text (PyBytes ["a"%byte]) = address_text (PyStr (lit "a")).
Proof.
  apply (encode_service_address_injective _ _ (lit "YQ==")); reflexivity.
Defined.

Lemma decode_service_address_rejects_non_ascii_witness :
  decode_service_address (lit "aGVs" ++ [0xE9%N])
  = Raise (ValueError "string argument should contain only ASCII characters").
Proof.
  apply decode_service_address_rejects_non_ascii.
  apply Exists_app. right. constructor. vm_compute. discriminate.
Defined.

(** ** Taking a search path apart *)

(** X23.  Where the path separator is one character that no library
    directory contains, splitting what [python_path_for] returns at the
    separator gives the library directories back, one per root and in
    the order of the roots. *)
Theorem search_path_splits_back `{Platform} sep primary inherited :
  pathsep = [sep] ->
  Forall (fun root => sep ∉ purelib root) (primary :: inherited) ->
  exists search_path,
    python_path_for (primary :: inherited) = Ok search_path
    /\ str_split sep search_path = map purelib (primary :: inherited).
Proof.
  intros Hsep Hall.
  destruct (python_path_for_split sep primary inherited Hsep Hall)
    as [Hpath Hsplit].
  eauto.
Qed.

Lemma search_path_splits_back_witness :
  exists search_path,
    @python_path_for (Example.platform 0) [[lit "env"]; [lit "base"]]
    = Ok search_path
    /\ str_split 58%N search_path
       = map (@purelib (Example.platform 0)) [[lit "env"]; [lit "base"]].
Proof.
  apply (@search_path_splits_back (Example.platform 0) 58%N).
  - reflexivity.
  - repeat constructor; apply (bool_decide_unpack _); vm_compute; reflexivity.
Defined.

(** ** Characters outside the alphabet *)

Section Discarded.
Import Codec CodecFacts.

Lemma table_a2b_alphabet (b : byte) :
  (64 <=? table_a2b_base64 b)%N = negb (bool_decide (b ∈ alphabet)).
Proof. destruct b; vm_compute; reflexivity. Qed.

(** The decoder loop does not see the bytes that are neither in the
    alphabet nor the padding character. *)
Lemma a2b_loop_discards input : forall quad_pos leftchar pads out,
  a2b_loop (List.filter is_base64_byte input) quad_pos leftchar pads out
  = a2b_loop input quad_pos leftchar pads out.
Proof.
  induction input as [|ch rest IH]; intros quad_pos leftchar pads out;
    [done|].
  cbn [List.filter]. unfold is_base64_byte at 1.
  case_bool_decide as Hin.
  - cbn [a2b_loop]. rewrite !IH.
    destruct (Byte.eqb ch BASE64_PAD); [done|].
    destruct (64 <=? table_a2b_base64 ch)%N; [done|].
    by destruct quad_pos as [|[|[|?]]].
  - rewrite IH. cbn [a2b_loop].
    apply not_elem_of_cons in Hin as [Hpad Halpha].
    destruct (Byte.eqb ch BASE64_PAD) eqn:Heq;
      [by apply Byte.byte_dec_bl in Heq|].
    rewrite table_a2b_alphabet. by rewrite bool_decide_eq_false_2.
Qed.

Lemma is_base64_char_byte c :
  (c < 0x80)%N -> is_base64_char c = is_base64_byte (byte_of_N c).
Proof.
  intros Hc. unfold is_base64_char, is_base64_byte.
  apply bool_decide_ext. split.
  - intros (x & -> & Hx)%list_elem_of_fmap. by rewrite byte_of_N_to_N.
  - intros Hin. apply list_elem_of_fmap. exists (byte_of_N c).
    split; [|done]. rewrite to_N_byte_of_N; [done|lia].
Qed.

Lemma ascii_encode_filter (s : pystr) (raw : pybytes) :
  ascii_encode s = Some raw ->
  ascii_encode (List.filter is_base64_char s)
  = Some (List.filter is_base64_byte raw).
Proof.
  revert raw. induction s as [|c s IH]; intros raw; cbn [ascii_encode].
  - by intros [= <-].
  - destruct (N.ltb_spec c 0x80) as [Hc|Hc]; [|done].
    intros (raw' & Hraw' & ->)%fmap_Some. specialize (IH raw' Hraw').
    cbn [List.filter]. rewrite (is_base64_char_byte c Hc).
    destruct (is_base64_byte (byte_of_N c)); [|done].
    cbn [ascii_encode]. apply N.ltb_lt in Hc. by rewrite Hc, IH.
Qed.

(** X24.  [decode_service_address] takes no notice of ASCII characters
    that are neither in the base64 alphabet nor [=]: removing them (line
    ends and blanks, say) from an ASCII string changes neither the
    decoded address nor the error. *)
Theorem decode_service_address_discards s :
  Forall (fun c => (c < 0x80)%N) s ->
  decode_service_address (List.filter is_base64_char s)
  = decode_service_address s.
Proof.
  intros Hascii.
  assert (exists raw, ascii_encode s = Some raw) as [raw Hraw].
  { induction Hascii as [|c s Hc _ [raw IH]]; [by exists []|].
    cbn [ascii_encode]. apply N.ltb_lt in Hc. rewrite Hc, IH. by eexists. }
  unfold decode_service_address, b64decode.
  rewrite (ascii_encode_filter _ _ Hraw), Hraw. cbn.
  unfold a2b_base64. by rewrite a2b_loop_discards.
Qed.
End Discarded.

Lemma decode_service_address_discards_witness :
  decode_service_address (lit "aGVsbG8=")
  = decode_service_address (lit "aGVs bG8=").
Proof.
  apply (decode_service_address_discards (lit "aGVs bG8=")).
  repeat constructor.
Defined.
